(** * K-means clustering engine ([kmeans.py]): model and properties

    The engine of [kmeans.py] is a Python class over numpy arrays of
    [float64].  It is embedded here as follows.

    - A [float64] is a primitive IEEE-754 binary64 float ([PrimFloat.float]),
      so that NaN, infinities and rounding behave as in numpy.
    - A two-dimensional array is its list of rows together with its number of
      columns (the latter is needed for arrays with no row).
    - A method is a computation over the interpreter state [world]: the fields
      of the [KMeans] object and numpy's process-wide random generator.  A
      computation returns a value or raises an exception, and in both cases
      leaves a state behind (type [Py]).
    - The Mersenne Twister behind [np.random] is abstracted as [RandomState]:
      [kmeans.py] only seeds it and draws K distinct indices from it. *)

From Stdlib Require Import ZArith QArith List Bool Lia Floats.
Import ListNotations.

Close Scope Q_scope.
Local Open Scope float_scope.

(** ** Ordering of binary64 values

    numpy's [argmin] and [allclose] rest on the comparisons of IEEE floats,
    which the kernel specifies over [spec_float]. *)

Module F64.

(** A key that orders the values other than NaN: sign class, then exponent,
    then mantissa (both negated for negative numbers). *)
Definition key (f : spec_float) : Z * Z * Z :=
  match f with
  | S754_nan => (0, 0, 0)%Z
  | S754_zero _ => (0, 0, 0)%Z
  | S754_infinity true => (-2, 0, 0)%Z
  | S754_infinity false => (2, 0, 0)%Z
  | S754_finite false m e => (1, e, Zpos m)%Z
  | S754_finite true m e => (-1, - e, Zneg m)%Z
  end.

Definition key_lt (a b : Z * Z * Z) : Prop :=
  let '(a1, a2, a3) := a in
  let '(b1, b2, b3) := b in
  (a1 < b1 \/ (a1 = b1 /\ (a2 < b2 \/ (a2 = b2 /\ a3 < b3))))%Z.

Definition not_nan (f : spec_float) : Prop := f <> S754_nan.

End F64.

(** ** Python exceptions *)

Inductive exn : Type :=
| ValueError
| TypeError
| IndexError.

(** What a call produces: a value, or a raised exception. *)
Inductive outcome (A : Type) : Type :=
| Returned (a : A)
| Raised (e : exn).

Arguments Returned {A} a.
Arguments Raised {A} e.

(** ** numpy arrays and the numpy functions [kmeans.py] calls *)

(** An array of shape [(length rows, ncols)]; every row has [ncols] entries. *)
Record ndarray : Type := mk_ndarray {
  ncols : nat;
  rows : list (list float)
}.

Definition shape0 (a : ndarray) : nat := length (rows a).

Module np.

(** [float(n)] for a count [n]. *)
Definition of_nat (n : nat) : float := of_uint63 (Uint63.of_Z (Z.of_nat n)).

(** [x ** 2] on floats is [np.square]: one multiplication. *)
Definition square (x : float) : float := x * x.

(** The sum of a contiguous run of floats, as numpy's [pairwise_sum] adds it.

    - Fewer than 8 entries are accumulated from [0.0], left to right.
    - Up to 128 entries go into eight running sums [r0 .. r7], entry [i] into
      sum [i mod 8], for as many whole groups of eight as there are; the
      running sums are combined as
      [((r0 + r1) + (r2 + r3)) + ((r4 + r5) + (r6 + r7))], and the entries
      left over are added to that one by one.
    - A longer run is split at half its length rounded down to a multiple of
      8, and the sums of the two parts are added. *)
Fixpoint accumulate8 (groups : nat) (r l : list float) : list float * list float :=
  match groups with
  | O => (r, l)
  | S g =>
      accumulate8 g (map (fun p => fst p + snd p) (combine r (firstn 8 l))) (skipn 8 l)
  end.

Definition sum_unrolled (l : list float) : float :=
  let (r, rest) := accumulate8 (length l / 8 - 1) (firstn 8 l) (skipn 8 l) in
  match r with
  | [r0; r1; r2; r3; r4; r5; r6; r7] =>
      fold_left add rest (((r0 + r1) + (r2 + r3)) + ((r4 + r5) + (r6 + r7)))
  | _ => fold_left add l 0
  end.

(** [depth] bounds the number of nested splits; the length of the run is
    always enough. *)
Fixpoint pairwise_sum (depth : nat) (l : list float) : float :=
  let n := length l in
  if (n <? 8)%nat then fold_left add l 0
  else if (n <=? 128)%nat then sum_unrolled l
  else
    match depth with
    | O => sum_unrolled l
    | S depth' =>
        let n2 := (n / 2 - (n / 2) mod 8)%nat in
        pairwise_sum depth' (firstn n2 l) + pairwise_sum depth' (skipn n2 l)
    end.

(** [a.sum()] along a contiguous axis: the reduction starts from the identity
    [0.0] and adds the pairwise sum of the entries to it.  (numpy versions
    differ on the sign of a sum whose terms are all [-0.0].) *)
Definition sum (l : list float) : float := 0 + pairwise_sum (length l) l.

(** Broadcasting of a binary operation along the last axis: sizes agree, or
    one of them is 1. *)
Definition broadcastable (d1 d2 : nat) : bool :=
  Nat.eqb d1 d2 || Nat.eqb d1 1 || Nat.eqb d2 1.

Definition broadcast2 (f : float -> float -> float) (x y : list float) : list float :=
  match x, y with
  | [a], _ => map (f a) y
  | _, [b] => map (fun a => f a b) x
  | _, _ => map (fun p => f (fst p) (snd p)) (combine x y)
  end.

(** [np.argmin] over one row, as numpy's scan does it: the running minimum
    [mp] is replaced by the next entry [ip] unless [ip >= mp]; a NaN is
    minimal and ends the scan. *)
Fixpoint argmin_scan (mp : float) (min_ind i : nat) (l : list float) : nat :=
  match l with
  | [] => min_ind
  | ip :: l' =>
      if negb (mp <=? ip)
      then if is_nan ip then i else argmin_scan ip i (S i) l'
      else argmin_scan mp min_ind (S i) l'
  end.

Definition argmin (l : list float) : nat :=
  match l with
  | [] => 0%nat
  | mp :: l' => if is_nan mp then 0%nat else argmin_scan mp 0 1 l'
  end.

(** [np.argmin(a, axis=1)]: an axis of length 0 has no minimum. *)
Definition argmin_axis1 (a : ndarray) : outcome (list nat) :=
  if Nat.eqb (ncols a) 0 then Raised ValueError
  else Returned (map argmin (rows a)).

(** [a.sum(axis=0)] of an array with rows [rs] and [d] columns.  The rows are
    added one after the other to a row of zeros: axis 0 is not the contiguous
    one.  An array with a single column is one contiguous run, and is summed
    as such. *)
Definition sum_axis0 (d : nat) (rs : list (list float)) : list float :=
  if Nat.eqb d 1 then [sum (map (fun r => hd 0 r) rs)]
  else fold_left (fun acc r => map (fun p => fst p + snd p) (combine acc r)) rs (repeat 0 d).

(** [a.mean(axis=0)]: the column sums divided by the number of rows.  With no
    row this is 0/0 in every column. *)

Definition mean_axis0 (d : nat) (rs : list (list float)) : list float :=
  map (fun s => s / of_nat (length rs)) (sum_axis0 d rs).

(** [np.isclose] and [np.allclose] with the default tolerances [rtol=1e-05]
    and [atol=1e-08], written as the binary64 values nearest to them. *)
Definition rtol : float := 0x1.4f8b588e368f1p-17.
Definition atol : float := 0x1.5798ee2308c3ap-27.

Definition isclose (x y : float) : bool :=
  ((abs (x - y) <=? atol + rtol * abs y) && is_finite y) || (x =? y).

Definition allclose (a b : ndarray) : bool :=
  forallb (fun rr => forallb (fun p => isclose (fst p) (snd p)) (combine (fst rr) (snd rr)))
          (combine (rows a) (rows b)).

(** [a[idx]] for a list of row indices. *)
Fixpoint take_rows (rs : list (list float)) (idx : list nat) : outcome (list (list float)) :=
  match idx with
  | [] => Returned []
  | i :: idx' =>
      match nth_error rs i with
      | None => Raised IndexError
      | Some r =>
          match take_rows rs idx' with
          | Returned rs' => Returned (r :: rs')
          | Raised e => Raised e
          end
      end
  end.

(** The rows whose label is [i], for one label per row. *)
Definition rows_where (rs : list (list float)) (labels : list nat) (i : nat) : list (list float) :=
  map fst (filter (fun p => Nat.eqb (snd p) i) (combine rs labels)).

(** [a[mask]] for the boolean mask [labels == i]: a mask that has not one
    entry per row of [a] is refused. *)
Definition select_rows (rs : list (list float)) (labels : list nat) (i : nat)
  : outcome (list (list float)) :=
  if Nat.eqb (length labels) (length rs)
  then Returned (rows_where rs labels i)
  else Raised IndexError.

End np.

(** ** numpy's global random generator

    [kmeans.py] uses two entry points of [np.random]: [seed], which resets the
    generator, and [choice(a, size, replace=False)], which returns the first
    [size] entries of a random permutation of [0 .. a-1] and advances the
    generator. *)

Class RandomState : Type := {
  rng : Type;
  seeded : Z -> rng;
  permutation_prefix : rng -> nat -> nat -> list nat * rng
}.

(** What numpy promises of a draw without replacement. *)
Class RandomStateSpec (RS : RandomState) : Prop := {
  prefix_length : forall g a size, size <= a ->
    length (fst (permutation_prefix g a size)) = size;
  prefix_bound : forall g a size, size <= a ->
    Forall (fun i => i < a) (fst (permutation_prefix g a size));
  prefix_NoDup : forall g a size, size <= a ->
    NoDup (fst (permutation_prefix g a size))
}.

(** ** The [KMeans] object *)

Record KMeans : Type := mk_KMeans {
  n_clusters : Z;
  max_iter : Z;
  random_state : option Z;
  centroids : option ndarray;
  labels : option (list nat)
}.

(** [KMeans(n_clusters=3, max_iter=300, random_state=None)] *)
Definition __init__ (n_clusters max_iter : Z) (random_state : option Z) : KMeans :=
  {| n_clusters := n_clusters; max_iter := max_iter; random_state := random_state;
     centroids := None; labels := None |}.

(** [self.centroids = c] and [self.labels = l] *)
Definition with_centroids (c : ndarray) (k : KMeans) : KMeans :=
  {| n_clusters := n_clusters k; max_iter := max_iter k; random_state := random_state k;
     centroids := Some c; labels := labels k |}.

Definition with_labels (l : list nat) (k : KMeans) : KMeans :=
  {| n_clusters := n_clusters k; max_iter := max_iter k; random_state := random_state k;
     centroids := centroids k; labels := Some l |}.

(** What a run of [fit] did; [fit] itself returns [None]. *)
Record run_info : Type := mk_run_info {
  iterations_run : nat;
  converged : bool
}.

Section Engine.

Context {RS : RandomState}.

(** The interpreter state a method runs in. *)
Record world : Type := mk_world {
  self : KMeans;
  np_random : rng
}.

Definition Py (A : Type) : Type := world -> outcome A * world.

Definition ret {A : Type} (a : A) : Py A := fun w => (Returned a, w).

Definition raise {A : Type} (e : exn) : Py A := fun w => (Raised e, w).

Definition bind {A B : Type} (m : Py A) (k : A -> Py B) : Py B :=
  fun w =>
    match m w with
    | (Returned a, w') => k a w'
    | (Raised e, w') => (Raised e, w')
    end.

Definition lift {A : Type} (o : outcome A) : Py A := fun w => (o, w).

Definition attr {A : Type} (field : KMeans -> A) : Py A := fun w => (Returned (field (self w)), w).

Definition set_centroids (c : ndarray) : Py unit :=
  fun w => (Returned tt, {| self := with_centroids c (self w); np_random := np_random w |}).

Definition set_labels (l : list nat) : Py unit :=
  fun w => (Returned tt, {| self := with_labels l (self w); np_random := np_random w |}).

End Engine.

Arguments world {RS}.
Arguments mk_world {RS} self np_random.
Arguments self {RS} w.
Arguments np_random {RS} w.

Declare Scope py_scope.
Delimit Scope py_scope with py.
Notation "x <- m ;; k" := (bind m (fun x => k))
  (at level 61, m at next level, right associativity) : py_scope.
Notation "m ;; k" := (bind m (fun _ => k))
  (at level 61, right associativity) : py_scope.

Section Methods.

Context {RS : RandomState}.

Local Open Scope py_scope.

(** [np.random.seed(s)]: the legacy seeding accepts [0 <= s < 2**32]. *)
Definition np_random_seed (s : Z) : Py unit :=
  fun w =>
    if ((0 <=? s) && (s <? 2 ^ 32))%Z
    then (Returned tt, {| self := self w; np_random := seeded s |})
    else (Raised ValueError, w).

(** [np.random.choice(a, size, replace=False)]: a negative size and a sample
    larger than the population are refused before anything is drawn. *)
Definition np_random_choice (a : nat) (size : Z) : Py (list nat) :=
  fun w =>
    if (size <? 0)%Z then (Raised ValueError, w)
    else if (Z.of_nat a <? size)%Z then (Raised ValueError, w)
    else
      let (idx, g) := permutation_prefix (np_random w) a (Z.to_nat size) in
      (Returned idx, {| self := self w; np_random := g |}).

(** One entry of [np.sqrt(((X[:, np.newaxis] - centroids) ** 2).sum(axis=2))]:
    the distance between a point [x] and a centroid [c]. *)
Definition sq_dist (x c : list float) : float :=
  np.sum (map np.square (np.broadcast2 sub x c)).

Definition euclidean (x c : list float) : float := sqrt (sq_dist x c).

(** [np.sqrt(((X[:, np.newaxis] - centroids) ** 2).sum(axis=2))], an array of
    shape [(N, K)].

    While [centroids] is [None] the subtraction runs numpy's loop over Python
    objects.  With at least one point it raises [TypeError] (a float minus
    [None]; for points of dimension 0, the square root of the integer 0 that
    an empty sum of objects is).  With no point there is no element to
    operate on, and the result is the empty array of shape [(0, 1)]. *)
Definition distances_to (X : ndarray) (c : option ndarray) : outcome ndarray :=
  match c with
  | None =>
      match rows X with
      | [] => Returned {| ncols := 1; rows := [] |}
      | _ :: _ => Raised TypeError
      end
  | Some C =>
      if np.broadcastable (ncols X) (ncols C)
      then Returned
             {| ncols := shape0 C;
                rows := map (fun x => map (euclidean x) (rows C)) (rows X) |}
      else Raised ValueError
  end.

Definition _assign_labels (X : ndarray) : Py (list nat) :=
  c <- attr centroids ;;
  distances <- lift (distances_to X c) ;;
  lift (np.argmin_axis1 distances).

(** [[X[labels == i].mean(axis=0) for i in clusters]]: the clusters are
    visited in order, and the first mask that does not fit [X] raises. *)
Fixpoint cluster_means (X : ndarray) (l : list nat) (clusters : list nat)
  : outcome (list (list float)) :=
  match clusters with
  | [] => Returned []
  | i :: clusters' =>
      match np.select_rows (rows X) l i with
      | Raised e => Raised e
      | Returned members =>
          match cluster_means X l clusters' with
          | Returned ms => Returned (np.mean_axis0 (ncols X) members :: ms)
          | Raised e => Raised e
          end
      end
  end.

(** [np.array([X[labels == i].mean(axis=0) for i in range(n_clusters)])]

    [fit] stores [labels] on the line before it calls [_update_centroids];
    for an object without labels the model raises, a case no run reaches. *)
Definition _update_centroids (X : ndarray) : Py ndarray :=
  l <- attr labels ;;
  k <- attr n_clusters ;;
  match l with
  | Some l =>
      ms <- lift (cluster_means X l (seq 0 (Z.to_nat k))) ;;
      ret {| ncols := ncols X; rows := ms |}
  | None => raise TypeError
  end.

(** [np.allclose(self.centroids, new_centroids)]; [fit] has set the centroids
    before the loop, and both arrays have shape [(K, D)]. *)
Definition centroids_allclose (new_centroids : ndarray) : Py bool :=
  c <- attr centroids ;;
  match c with
  | Some c => ret (np.allclose c new_centroids)
  | None => raise TypeError
  end.

(** The body of [for _ in range(self.max_iter)], with [budget] iterations
    left and [done] iterations behind. *)
Fixpoint fit_loop (budget : nat) (X : ndarray) (done : nat) : Py run_info :=
  match budget with
  | O => ret {| iterations_run := done; converged := false |}
  | S budget' =>
      l <- _assign_labels X ;;
      set_labels l ;;
      new_centroids <- _update_centroids X ;;
      close <- centroids_allclose new_centroids ;;
      if close : bool
      then ret {| iterations_run := S done; converged := true |}
      else set_centroids new_centroids ;; fit_loop budget' X (S done)
  end.

(** [if self.random_state: np.random.seed(self.random_state)]: [None] and [0]
    are both false in Python. *)
Definition seed_if_configured (random_state : option Z) : Py unit :=
  match random_state with
  | None => ret tt
  | Some s => if (s =? 0)%Z then ret tt else np_random_seed s
  end.

(** [fit], returning how the loop ended. *)
Definition fit_traced (X : ndarray) : Py run_info :=
  rs <- attr random_state ;;
  seed_if_configured rs ;;
  k <- attr n_clusters ;;
  initial_indices <- np_random_choice (shape0 X) k ;;
  c <- lift (np.take_rows (rows X) initial_indices) ;;
  set_centroids {| ncols := ncols X; rows := c |} ;;
  m <- attr max_iter ;;
  fit_loop (Z.to_nat m) X 0.

Definition fit (X : ndarray) : Py unit :=
  fit_traced X ;; ret tt.

Definition predict (X : ndarray) : Py (list nat) :=
  _assign_labels X.

(** The squared distance of every point to the centroid its label names. *)
Fixpoint sq_dists (xs : list (list float)) (l : list nat) (cs : list (list float))
  : option (list float) :=
  match xs, l with
  | x :: xs', j :: l' =>
      match nth_error cs j, sq_dists xs' l' cs with
      | Some c, Some ds => Some (sq_dist x c :: ds)
      | _, _ => None
      end
  | [], [] => Some []
  | _, _ => None
  end.

(** Total within-cluster squared distance of an object's labels and
    centroids over [X]: the sum over the points of the squared distance to the
    centroid they are assigned to ([None] before labels and centroids exist, or
    when a label names no centroid).  [kmeans.py] does not compute it. *)
Definition within_cluster_ss (X : ndarray) (k : KMeans) : option float :=
  match centroids k, labels k with
  | Some c, Some l => option_map np.sum (sq_dists (rows X) l (rows c))
  | _, _ => None
  end.

End Methods.

(** ** A concrete generator for running the model

    The draws below stand in for numpy's Mersenne Twister wherever a run is
    evaluated on concrete data: state [g] yields the permutation of
    [0 .. a-1] that starts at [g mod a] and counts upwards. *)

Definition rotation (g a size : nat) : list nat :=
  map (fun i => Nat.modulo (g + i) a) (seq 0 size).

#[global] Instance Rotating : RandomState := {|
  rng := nat;
  seeded := Z.to_nat;
  permutation_prefix := fun g a size => (rotation g a size, S g)
|}.

(** A one-column array, and a freshly constructed object next to generator
    state [g]. *)
Definition column (l : list float) : ndarray :=
  {| ncols := 1; rows := map (fun x => [x]) l |}.

Definition fresh (k m : Z) (seed : option Z) (g : nat) : @world Rotating :=
  {| self := __init__ k m seed; np_random := g |}.

(** ** Notions the properties are stated with *)

(** The array [_update_centroids] returns for [k] clusters when [l] has one
    label per point of [X]: row [i] is the mean of the points labelled [i]. *)
Definition means_of (X : ndarray) (l : list nat) (k : Z) : ndarray :=
  {| ncols := ncols X;
     rows := map (fun i => np.mean_axis0 (ncols X) (np.rows_where (rows X) l i))
                 (seq 0 (Z.to_nat k)) |}.

(** The labels [_assign_labels] computes depend on the centroids only. *)
Definition labels_for (X : ndarray) (c : option ndarray) : outcome (list nat) :=
  match distances_to X c with
  | Returned d => np.argmin_axis1 d
  | Raised e => Raised e
  end.

(** [j] is the first index of a minimum of [d]. *)
Definition first_minimum (d : list float) (j : nat) : Prop :=
  exists dj, nth_error d j = Some dj /\
    (forall k dk, nth_error d k = Some dk -> (dj <=? dk) = true) /\
    (forall k dk, k < j -> nth_error d k = Some dk -> (dj <? dk) = true).

Definition no_nan (d : list float) : Prop :=
  Forall (fun x => is_nan x = false) d.

(** [j] is the index of the first NaN of [d]. *)
Definition first_nan (d : list float) (j : nat) : Prop :=
  exists v, nth_error d j = Some v /\ is_nan v = true /\
    forall k dk, k < j -> nth_error d k = Some dk -> is_nan dk = false.

(** A seed [np.random.seed] accepts, or none. *)
Definition seed_ok (rs : option Z) : Prop :=
  match rs with
  | None => True
  | Some s => (0 <= s < 2 ^ 32)%Z
  end.

(** One label per point, each the index of a cluster. *)
Definition labelling (X : ndarray) (k : Z) (l : list nat) : Prop :=
  length l = shape0 X /\ Forall (fun j => (0 <= Z.of_nat j < k)%Z) l.

(** [np.mean(X, axis=0)] as a one-row array. *)
Definition mean_of_all (X : ndarray) : ndarray :=
  {| ncols := ncols X; rows := [np.mean_axis0 (ncols X) (rows X)] |}.

(** Every row of the array has as many entries as the array has columns. *)
Definition well_shaped (a : ndarray) : Prop :=
  Forall (fun r => length r = ncols a) (rows a).

(** The state the generator is in when [fit] draws its sample: reset by a
    seed other than 0, and otherwise as [fit] found it. *)
Definition generator_before_draw {RS : RandomState} (rs : option Z) (g : rng) : rng :=
  match rs with
  | Some s => if (s =? 0)%Z then g else seeded s
  | None => g
  end.

(** Two objects configured alike. *)
Definition same_configuration (k1 k2 : KMeans) : Prop :=
  n_clusters k1 = n_clusters k2 /\
  max_iter k1 = max_iter k2 /\
  random_state k1 = random_state k2.

(** Four points of the plane in two groups, and the state a run of [fit]
    with two clusters leaves from generator state 0. *)
Definition two_blobs : ndarray :=
  {| ncols := 2; rows := [[0; 0]; [0; 2]; [10; 10]; [10; 12]] |}.

Definition two_blobs_fitted : @world Rotating :=
  {| self := mk_KMeans 2 300 None (Some {| ncols := 2; rows := [[0; 1]; [10; 11]] |})
               (Some [0; 0; 1; 1]%nat);
     np_random := 1%nat |}.

(** The origin of a space of nine dimensions, and two centroids at squared
    distances 1e16 + 8 and 1e16 + 4 from it. *)
Definition origin9 : ndarray :=
  {| ncols := 9; rows := [[0; 0; 0; 0; 0; 0; 0; 0; 0]] |}.

Definition centroids9 : ndarray :=
  {| ncols := 9;
     rows := [[1e8; 1; 1; 1; 1; 1; 1; 1; 1]; [1e8; 2; 0; 0; 0; 0; 0; 0; 0]] |}.

(** Every entry is NaN. *)
Definition all_nan (c : list float) : Prop := Forall (fun v => is_nan v = true) c.

(** The Euclidean formula [sqrt(sum((x_i - c_i)^2))] for two points of the
    same dimension, with every operation done in [float64] and the sum added as
    numpy adds it. *)
Definition euclidean_float64 (x c : list float) : float :=
  sqrt (np.sum (map (fun p => (fst p - snd p) * (fst p - snd p)) (combine x c))).

(** The rational number a finite [float64] stands for. *)
Definition exact (x : float) : option Q :=
  match Prim2SF x with
  | S754_zero _ => Some 0%Q
  | S754_finite s m e =>
      let v := (inject_Z (Zpos m) * Qpower 2 e)%Q in
      Some (if s then Qopp v else v)
  | _ => None
  end.

(** The square of the Euclidean distance of two points of the same dimension,
    in exact arithmetic.  Distances are compared through their squares. *)
Fixpoint exact_sq_dist (x c : list float) : option Q :=
  match x, c with
  | [], [] => Some 0%Q
  | a :: x', b :: c' =>
      match exact a, exact b, exact_sq_dist x' c' with
      | Some qa, Some qb, Some d => Some ((qa - qb) * (qa - qb) + d)%Q
      | _, _, _ => None
      end
  | _, _ => None
  end.

(** * Properties *)

(** ** Facts about the order of binary64 values

    They are derived from the specification of the primitive comparisons. *)

Module F64Facts.

Import F64.

Lemma compare_cont_Eq (m1 m2 : positive) :
  Pos.compare_cont Eq m1 m2 = Pos.compare m1 m2.
Proof. reflexivity. Qed.

Lemma SFcompare_key (f1 f2 : spec_float) :
  not_nan f1 -> not_nan f2 ->
  match SFcompare f1 f2 with
  | Some Lt => key_lt (key f1) (key f2)
  | Some Eq => key f1 = key f2
  | Some Gt => key_lt (key f2) (key f1)
  | None => False
  end.
Proof.
  unfold not_nan.
  destruct f1 as [s1| s1| |s1 m1 e1], f2 as [s2| s2| |s2 m2 e2];
    try congruence; intros _ _; cbn;
    try (destruct s1; cbn; try lia; fail);
    try (destruct s2; cbn; try lia; fail);
    try (destruct s1, s2; cbn; try lia; reflexivity).
  destruct s1, s2; cbn; try lia.
  - destruct (Z.compare_spec e1 e2) as [He|He|He].
    + rewrite compare_cont_Eq.
      destruct (Pos.compare_spec m1 m2) as [Hm|Hm|Hm]; cbn; subst; try reflexivity; lia.
    + lia.
    + lia.
  - destruct (Z.compare_spec e1 e2) as [He|He|He].
    + rewrite compare_cont_Eq.
      destruct (Pos.compare_spec m1 m2) as [Hm|Hm|Hm]; cbn; subst; try reflexivity; lia.
    + lia.
    + lia.
Qed.

Lemma key_lt_irrefl (a : Z * Z * Z) : ~ key_lt a a.
Proof. destruct a as [[a1 a2] a3]; cbn; lia. Qed.

Lemma key_lt_trans (a b c : Z * Z * Z) : key_lt a b -> key_lt b c -> key_lt a c.
Proof. destruct a as [[a1 a2] a3], b as [[b1 b2] b3], c as [[c1 c2] c3]; cbn; lia. Qed.

Lemma key_lt_asym (a b : Z * Z * Z) : key_lt a b -> ~ key_lt b a.
Proof. intros H1 H2. exact (key_lt_irrefl a (key_lt_trans _ _ _ H1 H2)). Qed.

(** The three comparisons, read through [key]. *)
Lemma SFltb_key (f1 f2 : spec_float) :
  not_nan f1 -> not_nan f2 -> (SFltb f1 f2 = true <-> key_lt (key f1) (key f2)).
Proof.
  intros H1 H2. unfold SFltb.
  pose proof (SFcompare_key f1 f2 H1 H2) as H.
  destruct (SFcompare f1 f2) as [[ | | ]|]; split; intros H'; try easy.
  - rewrite H in H'. now apply key_lt_irrefl in H'.
  - now apply key_lt_asym in H.
Qed.

Lemma SFleb_key (f1 f2 : spec_float) :
  not_nan f1 -> not_nan f2 -> (SFleb f1 f2 = true <-> ~ key_lt (key f2) (key f1)).
Proof.
  intros H1 H2. unfold SFleb.
  pose proof (SFcompare_key f1 f2 H1 H2) as H.
  destruct (SFcompare f1 f2) as [[ | | ]|]; split; intros H'; try easy.
  - rewrite H. apply key_lt_irrefl.
  - now apply key_lt_asym.
Qed.

Lemma SFeqb_refl (f : spec_float) : not_nan f -> SFeqb f f = true.
Proof.
  intros H. unfold SFeqb.
  pose proof (SFcompare_key f f H H) as H'.
  destruct (SFcompare f f) as [[ | | ]|]; try easy; now apply key_lt_irrefl in H'.
Qed.

Lemma key_lt_dec (a b : Z * Z * Z) : key_lt a b \/ ~ key_lt a b.
Proof. destruct a as [[a1 a2] a3], b as [[b1 b2] b3]; cbn; lia. Qed.

(** NaN is the one value that differs from itself. *)
Lemma is_nan_spec (x : float) : is_nan x = false <-> not_nan (Prim2SF x).
Proof.
  unfold is_nan. rewrite eqb_spec. split.
  - intros H Hn. rewrite Hn in H. discriminate H.
  - intros H. now rewrite SFeqb_refl.
Qed.

Lemma eqb_refl (x : float) : is_nan x = false -> (x =? x) = true.
Proof. unfold is_nan. now destruct (x =? x). Qed.

Lemma leb_refl (x : float) : is_nan x = false -> (x <=? x) = true.
Proof.
  intros H. apply is_nan_spec in H. rewrite leb_spec.
  apply SFleb_key; auto using key_lt_irrefl.
Qed.

Lemma ltb_leb (x y : float) : (x <? y) = true -> (x <=? y) = true.
Proof.
  rewrite ltb_spec, leb_spec. unfold SFltb, SFleb.
  now destruct (SFcompare (Prim2SF x) (Prim2SF y)) as [[ | | ]|].
Qed.

(** Outside NaN the order is total ... *)
Lemma not_leb_ltb (x y : float) :
  is_nan x = false -> is_nan y = false -> (x <=? y) = false -> (y <? x) = true.
Proof.
  intros Hx Hy H. apply is_nan_spec in Hx, Hy.
  rewrite leb_spec in H. rewrite ltb_spec.
  apply SFltb_key; auto.
  destruct (key_lt_dec (key (Prim2SF y)) (key (Prim2SF x))) as [Hk|Hk]; auto.
  apply (SFleb_key _ _ Hx Hy) in Hk. congruence.
Qed.

(** ... and transitive. *)
Lemma ltb_leb_trans (x y z : float) :
  is_nan x = false -> is_nan y = false -> is_nan z = false ->
  (x <? y) = true -> (y <=? z) = true -> (x <? z) = true.
Proof.
  intros Hx Hy Hz. apply is_nan_spec in Hx, Hy, Hz.
  rewrite !ltb_spec, leb_spec.
  rewrite (SFltb_key _ _ Hx Hy), (SFltb_key _ _ Hx Hz), (SFleb_key _ _ Hy Hz).
  destruct (key (Prim2SF x)) as [[a1 a2] a3], (key (Prim2SF y)) as [[b1 b2] b3],
    (key (Prim2SF z)) as [[c1 c2] c3]; cbn; lia.
Qed.

Lemma leb_trans (x y z : float) :
  is_nan x = false -> is_nan y = false -> is_nan z = false ->
  (x <=? y) = true -> (y <=? z) = true -> (x <=? z) = true.
Proof.
  intros Hx Hy Hz. apply is_nan_spec in Hx, Hy, Hz.
  rewrite !leb_spec.
  rewrite (SFleb_key _ _ Hx Hy), (SFleb_key _ _ Hx Hz), (SFleb_key _ _ Hy Hz).
  destruct (key (Prim2SF x)) as [[a1 a2] a3], (key (Prim2SF y)) as [[b1 b2] b3],
    (key (Prim2SF z)) as [[c1 c2] c3]; cbn; lia.
Qed.

(** A comparison with NaN is false. *)
Lemma leb_nan_r (x y : float) : is_nan y = true -> (x <=? y) = false.
Proof.
  intros H. rewrite leb_spec.
  destruct (Prim2SF y) eqn:E.
  1,2,4: assert (Hn : is_nan y = false) by (apply is_nan_spec; unfold not_nan; congruence);
    congruence.
  unfold SFleb, SFcompare. now destruct (Prim2SF x).
Qed.

End F64Facts.

(** ** The concrete generator draws without replacement *)

Lemma rotation_inj (g a i j : nat) :
  i < a -> j < a -> Nat.modulo (g + i) a = Nat.modulo (g + j) a -> i = j.
Proof.
  intros Hi Hj H.
  pose proof (Nat.div_mod_eq (g + i) a) as Ei.
  pose proof (Nat.div_mod_eq (g + j) a) as Ej.
  rewrite H in Ei.
  assert (Nat.div (g + i) a = Nat.div (g + j) a) by nia.
  nia.
Qed.

#[global] Instance Rotating_spec : RandomStateSpec Rotating.
Proof.
  split; cbn; intros g a size Hsize.
  - unfold rotation. now rewrite length_map, length_seq.
  - unfold rotation. apply Forall_forall. intros x Hx.
    apply in_map_iff in Hx. destruct Hx as (i & <- & Hi).
    apply in_seq in Hi. apply Nat.mod_upper_bound. lia.
  - unfold rotation. apply NoDup_map_NoDup_ForallPairs.
    + intros i j Hi Hj. apply in_seq in Hi, Hj. apply rotation_inj; lia.
    + apply seq_NoDup.
Qed.

(** ** Reading the state *)

Section Frame.

Context {RS : RandomState}.

Lemma _assign_labels_eq (X : ndarray) (w : world) :
  _assign_labels X w = (labels_for X (centroids (self w)), w).
Proof.
  unfold _assign_labels, labels_for, bind, attr, lift.
  now destruct (distances_to X (centroids (self w))).
Qed.

End Frame.

(** C10: [predict] leaves the object and the generator as they were, whatever
    it is given and whether it returns labels or raises. *)
Theorem predict_leaves_state (RS : RandomState) (X : ndarray) (w : world) :
  let w' := snd (predict X w) in
  w' = w /\
  centroids (self w') = centroids (self w) /\
  labels (self w') = labels (self w).
Proof.
  unfold predict. rewrite _assign_labels_eq. cbn. auto.
Qed.

(** ** [predict] before [fit] *)

(** C3, as stated, fails on a point set with no point: the arithmetic on the
    absent centroids has no element to fail on, and [predict] returns the
    empty label array. *)
Lemma predict_unfitted_empty_returns :
  centroids (self (fresh 3 300 None 0)) = None /\
  predict {| ncols := 2; rows := [] |} (fresh 3 300 None 0)
  = (Returned [], fresh 3 300 None 0).
Proof. split; reflexivity. Qed.

(** C3, amended: on an object whose centroids were never set, [predict]
    raises for every point set that holds at least one point, and the object
    stays as it was. *)
Theorem predict_unfitted_raises (RS : RandomState) (X : ndarray) (w : world) :
  centroids (self w) = None ->
  rows X <> [] ->
  predict X w = (Raised TypeError, w).
Proof.
  intros Hc HX. unfold predict. rewrite _assign_labels_eq, Hc.
  unfold labels_for, distances_to.
  destruct (rows X); [contradiction | reflexivity].
Qed.

Lemma predict_unfitted_raises_witness :
  predict (column [1; 2]) (fresh 3 300 None 0)
  = (Raised TypeError, fresh 3 300 None 0).
Proof.
  apply (predict_unfitted_raises Rotating (column [1; 2]) (fresh 3 300 None 0)).
  - reflexivity.
  - discriminate.
Defined.

(** ** The assignment step *)

Module ArgminFacts.

Import F64Facts.

(** The scan never leaves the entries it has been given. *)
Lemma argmin_scan_bound (l : list float) (mp : float) (min_ind i : nat) :
  min_ind < i -> np.argmin_scan mp min_ind i l < i + length l.
Proof.
  revert mp min_ind i.
  induction l as [|ip l IH]; intros mp min_ind i Hlt; cbn.
  - lia.
  - destruct (negb (mp <=? ip)).
    + destruct (is_nan ip).
      * lia.
      * specialize (IH ip i (S i)). lia.
    + specialize (IH mp min_ind (S i)). lia.
Qed.

Lemma argmin_bound (l : list float) : l <> [] -> np.argmin l < length l.
Proof.
  destruct l as [|mp l]; [congruence|]. intros _. cbn.
  destruct (is_nan mp); [lia|].
  pose proof (argmin_scan_bound l mp 0 1). lia.
Qed.

(** The invariant of the scan: after the entries [pre], [mp] is the entry at
    [min_ind], no entry of [pre] is below it and the entries before [min_ind]
    are above it. *)
Lemma argmin_scan_first_minimum (l pre : list float) (mp : float) (min_ind : nat) :
  no_nan (pre ++ l) ->
  nth_error pre min_ind = Some mp ->
  (forall k dk, nth_error pre k = Some dk -> (mp <=? dk) = true) ->
  (forall k dk, k < min_ind -> nth_error pre k = Some dk -> (mp <? dk) = true) ->
  first_minimum (pre ++ l) (np.argmin_scan mp min_ind (length pre) l).
Proof.
  revert pre mp min_ind.
  induction l as [|ip l IH]; intros pre mp min_ind Hnan Hmp Hle Hlt; cbn.
  - rewrite app_nil_r. exists mp. auto.
  - assert (Hpre : pre ++ ip :: l = (pre ++ [ip]) ++ l) by now rewrite <- app_assoc.
    assert (Hnmp : is_nan mp = false).
    { unfold no_nan in Hnan. rewrite Forall_forall in Hnan.
      apply Hnan, in_or_app. left. eapply nth_error_In; eauto. }
    assert (Hnip : is_nan ip = false).
    { unfold no_nan in Hnan. rewrite Forall_forall in Hnan.
      apply Hnan, in_or_app. right. now left. }
    assert (Hnpre : forall k dk, nth_error pre k = Some dk -> is_nan dk = false).
    { intros k dk Hk. unfold no_nan in Hnan. rewrite Forall_forall in Hnan.
      apply Hnan, in_or_app. left. eapply nth_error_In; eauto. }
    assert (Hlen : length (pre ++ [ip]) = S (length pre)).
    { rewrite length_app. cbn. lia. }
    destruct (mp <=? ip) eqn:Hcmp; cbn.
    + (* the minimum stays *)
      rewrite Hpre, <- Hlen. apply IH.
      * now rewrite <- Hpre.
      * rewrite nth_error_app1; auto. apply nth_error_Some. congruence.
      * intros k dk Hk.
        destruct (Nat.lt_ge_cases k (length pre)) as [Hk'|Hk'].
        -- rewrite nth_error_app1 in Hk by auto. eauto.
        -- rewrite nth_error_app2 in Hk by auto.
           destruct (k - length pre)%nat as [|n]; cbn in Hk.
           ++ now inversion Hk; subst.
           ++ now destruct n.
      * intros k dk Hk Hnth.
        assert (min_ind < length pre) by (apply nth_error_Some; congruence).
        rewrite nth_error_app1 in Hnth by lia. eauto.
    + (* [ip] is the new minimum *)
      rewrite Hnip.
      assert (Hip : (ip <? mp) = true) by now apply not_leb_ltb.
      rewrite Hpre, <- Hlen. apply IH.
      * now rewrite <- Hpre.
      * rewrite nth_error_app2 by lia. now rewrite Nat.sub_diag.
      * intros k dk Hk.
        destruct (Nat.lt_ge_cases k (length pre)) as [Hk'|Hk'].
        -- rewrite nth_error_app1 in Hk by auto.
           apply ltb_leb. apply (ltb_leb_trans ip mp dk); eauto.
        -- rewrite nth_error_app2 in Hk by auto.
           destruct (k - length pre)%nat as [|n]; cbn in Hk.
           ++ inversion Hk; subst. now apply leb_refl.
           ++ now destruct n.
      * intros k dk Hk Hnth.
        rewrite nth_error_app1 in Hnth by lia.
        apply (ltb_leb_trans ip mp dk); eauto.
Qed.

Lemma argmin_first_minimum (d : list float) :
  d <> [] -> no_nan d -> first_minimum d (np.argmin d).
Proof.
  destruct d as [|mp l]; [congruence|]. intros _ Hnan. cbn.
  assert (Hmp : is_nan mp = false) by now inversion Hnan.
  rewrite Hmp.
  apply (argmin_scan_first_minimum l [mp] mp 0 Hnan).
  - reflexivity.
  - intros [|[|k]] dk Hk; cbn in Hk; try discriminate.
    inversion Hk; subst. now apply leb_refl.
  - intros k dk Hk. lia.
Qed.

Lemma argmin_scan_first_nan (l pre : list float) (mp : float) (min_ind : nat) :
  no_nan pre ->
  is_nan mp = false ->
  Exists (fun v => is_nan v = true) l ->
  first_nan (pre ++ l) (np.argmin_scan mp min_ind (length pre) l).
Proof.
  revert pre mp min_ind.
  induction l as [|ip l IH]; intros pre mp min_ind Hpre Hmp Hex.
  - inversion Hex.
  - assert (Happ : pre ++ ip :: l = (pre ++ [ip]) ++ l) by now rewrite <- app_assoc.
    assert (Hlen : length (pre ++ [ip]) = S (length pre)).
    { rewrite length_app. cbn. lia. }
    cbn. destruct (is_nan ip) eqn:Hip.
    + rewrite (leb_nan_r mp ip Hip). cbn.
      exists ip. split; [|split; [exact Hip|]].
      * rewrite nth_error_app2 by lia. now rewrite Nat.sub_diag.
      * intros k dk Hk Hnth. rewrite nth_error_app1 in Hnth by lia.
        unfold no_nan in Hpre. rewrite Forall_forall in Hpre.
        apply Hpre. eapply nth_error_In; eauto.
    + assert (Hpre' : no_nan (pre ++ [ip])).
      { apply Forall_app. split; [exact Hpre | now constructor]. }
      assert (Hex' : Exists (fun v => is_nan v = true) l).
      { inversion Hex; subst; [congruence | assumption]. }
      rewrite Happ, <- Hlen.
      destruct (negb (mp <=? ip)); now apply IH.
Qed.

Lemma argmin_first_nan (d : list float) :
  Exists (fun v => is_nan v = true) d -> first_nan d (np.argmin d).
Proof.
  destruct d as [|mp l]; intros Hex; [inversion Hex|]. cbn.
  destruct (is_nan mp) eqn:Hmp.
  - exists mp. split; [reflexivity|]. split; [exact Hmp|]. intros k dk Hk. lia.
  - apply (argmin_scan_first_nan l [mp] mp 0).
    + now constructor.
    + exact Hmp.
    + inversion Hex; subst; [congruence | assumption].
Qed.

End ArgminFacts.

(** ** The assignment step *)

(** The distance the code computes between two points of the same dimension
    is the Euclidean formula evaluated in [float64]. *)
Lemma euclidean_formula (x c : list float) :
  length x = length c -> euclidean x c = euclidean_float64 x c.
Proof.
  intros Hlen. unfold euclidean, sq_dist, euclidean_float64. do 2 f_equal.
  destruct x as [|a [|a' x]]; destruct c as [|b [|b' c]];
    try discriminate Hlen; try reflexivity.
  cbn [np.broadcast2]. now rewrite map_map.
Qed.

(** Every label is the first index of a minimum of the point's row of
    distances, or of its first NaN. *)
Lemma labels_first_minimum (RS : RandomState) (X C : ndarray) (w : world) :
  centroids (self w) = Some C ->
  np.broadcastable (ncols X) (ncols C) = true ->
  rows C <> [] ->
  exists l,
    _assign_labels X w = (Returned l, w) /\
    length l = shape0 X /\
    forall i x j, nth_error (rows X) i = Some x -> nth_error l i = Some j ->
      exists cj, nth_error (rows C) j = Some cj /\
        ((forall c, In c (rows C) -> is_nan (euclidean x c) = false) ->
         (forall k ck, nth_error (rows C) k = Some ck ->
                       (euclidean x cj <=? euclidean x ck) = true) /\
         (forall k ck, (k < j)%nat -> nth_error (rows C) k = Some ck ->
                       (euclidean x cj <? euclidean x ck) = true)) /\
        ((exists c, In c (rows C) /\ is_nan (euclidean x c) = true) ->
         is_nan (euclidean x cj) = true /\
         (forall k ck, (k < j)%nat -> nth_error (rows C) k = Some ck ->
                       is_nan (euclidean x ck) = false)).
Proof.
  intros Hc Hb HC.
  rewrite _assign_labels_eq, Hc. unfold labels_for, distances_to. rewrite Hb.
  unfold np.argmin_axis1. cbn [ncols rows].
  assert (HK : Nat.eqb (shape0 C) 0 = false).
  { unfold shape0. destruct (rows C); [congruence | reflexivity]. }
  rewrite HK.
  eexists. split; [reflexivity|]. split.
  { unfold shape0. now rewrite !length_map. }
  intros i x j Hx Hj.
  rewrite map_map, nth_error_map, Hx in Hj. cbn in Hj. injection Hj as Hj.
  assert (Hne : map (euclidean x) (rows C) <> []).
  { destruct (rows C); [congruence | discriminate]. }
  pose proof (ArgminFacts.argmin_bound _ Hne) as Hlt.
  rewrite Hj, length_map in Hlt.
  destruct (nth_error (rows C) j) as [cj|] eqn:Hcj;
    [|apply nth_error_None in Hcj; lia].
  exists cj. split; [reflexivity|]. split.
  - intros Hnan.
    destruct (ArgminFacts.argmin_first_minimum (map (euclidean x) (rows C)) Hne)
      as (dj & Hdj & Hmin & Hfirst).
    { apply Forall_forall. intros d Hd. apply in_map_iff in Hd.
      destruct Hd as (c & <- & Hin). now apply Hnan. }
    rewrite Hj in Hdj, Hfirst. rewrite nth_error_map, Hcj in Hdj.
    cbn [option_map] in Hdj. injection Hdj as <-. split.
    + intros k ck Hk. apply (Hmin k). now rewrite nth_error_map, Hk.
    + intros k ck Hk' Hk. apply (Hfirst k); [exact Hk'|]. now rewrite nth_error_map, Hk.
  - intros (c & Hin & Hnan).
    destruct (ArgminFacts.argmin_first_nan (map (euclidean x) (rows C)))
      as (v & Hv & Hvnan & Hbefore).
    { apply Exists_exists. exists (euclidean x c). split; [now apply in_map | exact Hnan]. }
    rewrite Hj in Hv, Hbefore. rewrite nth_error_map, Hcj in Hv.
    cbn [option_map] in Hv. injection Hv as <-. split; [exact Hvnan|].
    intros k ck Hk' Hk. apply (Hbefore k); [exact Hk'|]. now rewrite nth_error_map, Hk.
Qed.

(** C7, as stated, fails where rounding makes two different distances equal.
    For the point (0, 0) and the centroids (1, 2^-30) and (1, 0), the squared
    distances are 1 + 2^-60 and 1; the first is rounded to 1, both computed
    distances are 1.0, and the point gets label 0, although centroid 1 is
    strictly nearer. *)
Lemma assign_labels_rounding_tie :
  _assign_labels {| ncols := 2; rows := [[0; 0]] |}
    (@mk_world Rotating
       (mk_KMeans 2 300 None (Some {| ncols := 2; rows := [[1; 0x1p-30]; [1; 0]] |}) None)
       0%nat)
  = (Returned [0%nat],
     @mk_world Rotating
       (mk_KMeans 2 300 None (Some {| ncols := 2; rows := [[1; 0x1p-30]; [1; 0]] |}) None)
       0%nat) /\
  euclidean_float64 [0; 0] [1; 0x1p-30] = 1 /\
  euclidean_float64 [0; 0] [1; 0] = 1 /\
  exists d0 d1,
    exact_sq_dist [0; 0] [1; 0x1p-30] = Some d0 /\
    exact_sq_dist [0; 0] [1; 0] = Some d1 /\
    (d1 < d0)%Q.
Proof.
  split; [vm_compute; reflexivity|].
  split; [vm_compute; reflexivity|].
  split; [vm_compute; reflexivity|].
  do 2 eexists. split; [vm_compute; reflexivity|].
  split; [vm_compute; reflexivity|].
  vm_compute. reflexivity.
Qed.

(** C7, amended: in the assignment step every point gets the lowest centroid
    index at which its distance is minimal, where the distance to a centroid
    is the [float64] value of the Euclidean formula: the coordinate
    differences, their squares, the sum and the square root are each rounded.
    Centroids whose exact distances differ by less than the rounding are at
    the same computed distance, and the lowest index among them is chosen.  A
    point with a NaN among its computed distances has no minimum: it gets the
    index of its first NaN distance. *)
Theorem assign_labels_nearest (RS : RandomState) (X C : ndarray) (w : world) :
  centroids (self w) = Some C ->
  well_shaped X ->
  well_shaped C ->
  ncols X = ncols C ->
  rows C <> [] ->
  exists l,
    _assign_labels X w = (Returned l, w) /\
    length l = shape0 X /\
    forall i x j, nth_error (rows X) i = Some x -> nth_error l i = Some j ->
      exists cj, nth_error (rows C) j = Some cj /\
        ((forall c, In c (rows C) -> is_nan (euclidean_float64 x c) = false) ->
         (forall k ck, nth_error (rows C) k = Some ck ->
                       (euclidean_float64 x cj <=? euclidean_float64 x ck) = true) /\
         (forall k ck, (k < j)%nat -> nth_error (rows C) k = Some ck ->
                       (euclidean_float64 x cj <? euclidean_float64 x ck) = true)) /\
        ((exists c, In c (rows C) /\ is_nan (euclidean_float64 x c) = true) ->
         is_nan (euclidean_float64 x cj) = true /\
         (forall k ck, (k < j)%nat -> nth_error (rows C) k = Some ck ->
                       is_nan (euclidean_float64 x ck) = false)).
Proof.
  intros Hc HX HC Hd Hne.
  assert (Hb : np.broadcastable (ncols X) (ncols C) = true).
  { unfold np.broadcastable. rewrite Hd, Nat.eqb_refl. reflexivity. }
  destruct (labels_first_minimum RS X C w Hc Hb Hne) as (l & Hrun & Hlen & Hl).
  exists l. split; [exact Hrun|]. split; [exact Hlen|].
  intros i x j Hx Hj.
  destruct (Hl i x j Hx Hj) as (cj & Hcj & Hmin & Hnan).
  exists cj. split; [exact Hcj|].
  unfold well_shaped in HX, HC. rewrite Forall_forall in HX, HC.
  assert (Hx' : length x = ncols C).
  { rewrite <- Hd. apply HX. eapply nth_error_In; eauto. }
  assert (Heq : forall c, In c (rows C) -> euclidean x c = euclidean_float64 x c).
  { intros c Hin. apply euclidean_formula. rewrite Hx'. symmetry. now apply HC. }
  assert (Heqn : forall k ck, nth_error (rows C) k = Some ck ->
                   euclidean x ck = euclidean_float64 x ck).
  { intros k ck Hk. apply Heq. eapply nth_error_In; eauto. }
  split.
  - intros Hfin.
    destruct Hmin as [Hle Hlt].
    { intros c Hin. rewrite (Heq c Hin). now apply Hfin. }
    split.
    + intros k ck Hk. rewrite <- (Heqn j cj Hcj), <- (Heqn k ck Hk). now apply (Hle k).
    + intros k ck Hkj Hk. rewrite <- (Heqn j cj Hcj), <- (Heqn k ck Hk). now apply (Hlt k).
  - intros (c & Hin & Hcnan).
    destruct Hnan as [Hj' Hbefore].
    { exists c. split; [exact Hin|]. now rewrite (Heq c Hin). }
    split.
    + now rewrite <- (Heqn j cj Hcj).
    + intros k ck Hkj Hk. rewrite <- (Heqn k ck Hk). now apply (Hbefore k).
Qed.

(** Nine coordinates, where numpy adds the squares in eight running sums:
    the squared distances of the origin to the two centroids come out as
    1e16 + 8 and 1e16 + 4, and the point gets label 1.  (Added one after the
    other, the squares of the first centroid would sum to 1e16.)  In the plane,
    the distances of (0, 0) and (3, 3) to (3, 4) and (0, 1) are 5, 1, 1 and
    the square root of 13. *)
Lemma assign_labels_nearest_witness :
  (exists l,
     _assign_labels origin9
       (@mk_world Rotating
          (mk_KMeans 2 300 None (Some centroids9) None) 0%nat)
     = (Returned l,
        (@mk_world Rotating
          (mk_KMeans 2 300 None (Some centroids9) None) 0%nat)) /\
     length l = 1%nat /\
     forall i x j,
       nth_error (rows origin9) i = Some x -> nth_error l i = Some j ->
       exists cj,
         nth_error (rows centroids9) j = Some cj /\
         ((forall c, In c (rows centroids9) ->
                     is_nan (euclidean_float64 x c) = false) ->
          (forall k ck,
             nth_error (rows centroids9) k = Some ck ->
             (euclidean_float64 x cj <=? euclidean_float64 x ck) = true) /\
          (forall k ck, (k < j)%nat ->
             nth_error (rows centroids9) k = Some ck ->
             (euclidean_float64 x cj <? euclidean_float64 x ck) = true)) /\
         ((exists c, In c (rows centroids9) /\
                     is_nan (euclidean_float64 x c) = true) ->
          is_nan (euclidean_float64 x cj) = true /\
          (forall k ck, (k < j)%nat ->
             nth_error (rows centroids9) k = Some ck ->
             is_nan (euclidean_float64 x ck) = false))) /\
  fst (_assign_labels origin9
         (@mk_world Rotating
          (mk_KMeans 2 300 None (Some centroids9) None) 0%nat))
  = Returned [1%nat] /\
  map (fun c => np.sum (map (fun p => (fst p - snd p) * (fst p - snd p))
                            (combine [0; 0; 0; 0; 0; 0; 0; 0; 0] c)))
      (rows centroids9)
  = [10000000000000008; 10000000000000004] /\
  map (fun x => map (euclidean_float64 x) [[3; 4]; [0; 1]]) [[0; 0]; [3; 3]]
  = [[5; 1]; [1; sqrt 13]].
Proof.
  split; [|repeat split; vm_compute; reflexivity].
  apply (assign_labels_nearest Rotating
           origin9
           centroids9).
  - reflexivity.
  - repeat constructor.
  - repeat constructor.
  - reflexivity.
  - discriminate.
Defined.

(** ** The update step on labels that fit the points *)

Lemma labels_for_length (X : ndarray) (c : option ndarray) (l : list nat) :
  labels_for X c = Returned l -> length l = shape0 X.
Proof.
  unfold labels_for, distances_to, np.argmin_axis1, shape0.
  destruct c as [C|].
  - destruct (np.broadcastable (ncols X) (ncols C)); [|discriminate].
    cbn [ncols rows]. destruct (Nat.eqb (length (rows C)) 0); [discriminate|].
    intros [= <-]. now rewrite !length_map.
  - destruct (rows X) as [|x xs]; [|discriminate].
    cbn. now intros [= <-].
Qed.

Lemma cluster_means_fit (X : ndarray) (l : list nat) (clusters : list nat) :
  length l = shape0 X ->
  cluster_means X l clusters =
    Returned (map (fun i => np.mean_axis0 (ncols X) (np.rows_where (rows X) l i)) clusters).
Proof.
  intros Hlen. induction clusters as [|i clusters IH]; [reflexivity|].
  cbn [cluster_means map]. unfold np.select_rows.
  unfold shape0 in Hlen. rewrite Hlen, Nat.eqb_refl, IH. reflexivity.
Qed.

Lemma cluster_means_misfit (X : ndarray) (l : list nat) (i : nat) (clusters : list nat) :
  length l <> shape0 X ->
  cluster_means X l (i :: clusters) = Raised IndexError.
Proof.
  intros Hlen. cbn [cluster_means]. unfold np.select_rows.
  apply Nat.eqb_neq in Hlen. unfold shape0 in Hlen. now rewrite Hlen.
Qed.

(** ** Unfolding a run of [fit] *)

Section Runs.

Context {RS : RandomState}.

Lemma _update_centroids_eq (X : ndarray) (w : world) (l : list nat) :
  labels (self w) = Some l ->
  length l = shape0 X ->
  _update_centroids X w = (Returned (means_of X l (n_clusters (self w))), w).
Proof.
  intros Hl Hlen. unfold _update_centroids, bind, attr, lift, ret.
  rewrite Hl, (cluster_means_fit X l _ Hlen). reflexivity.
Qed.

(** One iteration of the loop that gets its labels. *)
Lemma fit_loop_step (b : nat) (X : ndarray) (done : nat) (w : world) (C : ndarray) (l : list nat) :
  centroids (self w) = Some C ->
  labels_for X (Some C) = Returned l ->
  fit_loop (S b) X done w =
    let new_centroids := means_of X l (n_clusters (self w)) in
    if np.allclose C new_centroids
    then (Returned {| iterations_run := S done; converged := true |},
          {| self := with_labels l (self w); np_random := np_random w |})
    else fit_loop b X (S done)
           {| self := with_centroids new_centroids (with_labels l (self w));
              np_random := np_random w |}.
Proof.
  intros Hc Hl. cbn [fit_loop]. unfold bind at 1.
  rewrite _assign_labels_eq, Hc, Hl.
  unfold bind, set_labels.
  erewrite _update_centroids_eq;
    [ | reflexivity | exact (labels_for_length _ _ _ Hl) ].
  unfold centroids_allclose, attr, ret, bind, set_centroids.
  cbn. rewrite Hc.
  now destruct (np.allclose C (means_of X l (n_clusters (self w)))).
Qed.

(** An iteration whose assignment step raises ends the run there. *)
Lemma fit_loop_raise (b : nat) (X : ndarray) (done : nat) (w : world) (e : exn) :
  labels_for X (centroids (self w)) = Raised e ->
  fit_loop (S b) X done w = (Raised e, w).
Proof.
  intros Hl. cbn [fit_loop]. unfold bind at 1.
  now rewrite _assign_labels_eq, Hl.
Qed.

Lemma seed_if_configured_self (rs : option Z) (w : world) :
  self (snd (seed_if_configured rs w)) = self w.
Proof.
  unfold seed_if_configured, np_random_seed, ret.
  destruct rs as [s|]; [|reflexivity].
  destruct (s =? 0)%Z; [reflexivity|].
  now destruct ((0 <=? s) && (s <? 2 ^ 32))%Z.
Qed.

Lemma np_random_choice_self (a : nat) (size : Z) (w : world) :
  self (snd (np_random_choice a size w)) = self w.
Proof.
  unfold np_random_choice.
  destruct (size <? 0)%Z; [reflexivity|].
  destruct (Z.of_nat a <? size)%Z; [reflexivity|].
  now destruct (permutation_prefix (np_random w) a (Z.to_nat size)).
Qed.

(** [fit], statement by statement. *)
Lemma fit_traced_eq (X : ndarray) (w : world) :
  fit_traced X w =
    match seed_if_configured (random_state (self w)) w with
    | (Raised e, w1) => (Raised e, w1)
    | (Returned _, w1) =>
        match np_random_choice (shape0 X) (n_clusters (self w)) w1 with
        | (Raised e, w2) => (Raised e, w2)
        | (Returned initial_indices, w2) =>
            match np.take_rows (rows X) initial_indices with
            | Raised e => (Raised e, w2)
            | Returned c =>
                fit_loop (Z.to_nat (max_iter (self w))) X 0
                  {| self := with_centroids {| ncols := ncols X; rows := c |} (self w);
                     np_random := np_random w2 |}
            end
        end
    end.
Proof.
  unfold fit_traced, bind, attr, lift, set_centroids.
  pose proof (seed_if_configured_self (random_state (self w)) w) as H1.
  destruct (seed_if_configured (random_state (self w)) w) as [[[]|e] w1]; [|reflexivity].
  cbn in H1. rewrite H1.
  pose proof (np_random_choice_self (shape0 X) (n_clusters (self w)) w1) as H2.
  destruct (np_random_choice (shape0 X) (n_clusters (self w)) w1) as [[idx|e] w2];
    [|reflexivity].
  cbn in H2. rewrite H2, H1.
  now destruct (np.take_rows (rows X) idx).
Qed.

Lemma fit_eq (X : ndarray) (w : world) :
  fit X w =
    match fit_traced X w with
    | (Returned _, w') => (Returned tt, w')
    | (Raised e, w') => (Raised e, w')
    end.
Proof. reflexivity. Qed.

End Runs.

(** ** Configurations [fit] accepts and refuses *)

Section Configuration.

Context {RS : RandomState}.

Lemma seed_if_configured_cases (rs : option Z) (w : world) :
  (exists g, seed_if_configured rs w = (Returned tt, {| self := self w; np_random := g |})) \/
  seed_if_configured rs w = (Raised ValueError, w).
Proof.
  unfold seed_if_configured, np_random_seed, ret.
  destruct rs as [s|].
  - destruct (s =? 0)%Z.
    + left. exists (np_random w). now destruct w.
    + destruct ((0 <=? s) && (s <? 2 ^ 32))%Z; [left; now eexists | now right].
  - left. exists (np_random w). now destruct w.
Qed.

Lemma seed_if_configured_ok (rs : option Z) (w : world) :
  seed_ok rs ->
  exists g, seed_if_configured rs w = (Returned tt, {| self := self w; np_random := g |}).
Proof.
  intros Hok. unfold seed_if_configured, np_random_seed, ret.
  destruct rs as [s|].
  - destruct (s =? 0)%Z.
    + exists (np_random w). now destruct w.
    + cbn in Hok.
      assert (H : ((0 <=? s) && (s <? 2 ^ 32))%Z = true).
      { apply andb_true_intro. split; [apply Z.leb_le | apply Z.ltb_lt]; lia. }
      rewrite H. now eexists.
  - exists (np_random w). now destruct w.
Qed.

Lemma take_rows_ok (rs : list (list float)) (idx : list nat) :
  Forall (fun i => i < length rs) idx ->
  exists c, np.take_rows rs idx = Returned c /\
            Forall2 (fun i r => nth_error rs i = Some r) idx c.
Proof.
  induction idx as [|i idx IH]; intros H; cbn.
  - exists []. auto.
  - inversion H as [|? ? Hi Hidx]; subst.
    destruct (IH Hidx) as (c & Hc & Hall).
    destruct (nth_error rs i) as [r|] eqn:Hr.
    + rewrite Hc. exists (r :: c). auto.
    + apply nth_error_None in Hr. lia.
Qed.

(** The sample [fit] starts from, for a cluster count within the number of
    points: that many rows of [X]. *)
Lemma initial_sample (RSS : RandomStateSpec RS) (X : ndarray) (k : Z) (w : world) :
  (0 <= k <= Z.of_nat (shape0 X))%Z ->
  exists idx g c,
    np_random_choice (shape0 X) k w = (Returned idx, {| self := self w; np_random := g |}) /\
    np.take_rows (rows X) idx = Returned c /\
    Forall2 (fun i r => nth_error (rows X) i = Some r) idx c /\
    length c = Z.to_nat k /\
    NoDup idx.
Proof.
  intros Hk. unfold np_random_choice.
  assert (H1 : (k <? 0)%Z = false) by (apply Z.ltb_ge; lia).
  assert (H2 : (Z.of_nat (shape0 X) <? k)%Z = false) by (apply Z.ltb_ge; lia).
  rewrite H1, H2.
  assert (Hle : Z.to_nat k <= shape0 X) by lia.
  pose proof (prefix_length (np_random w) _ _ Hle) as Hlen.
  pose proof (prefix_bound (np_random w) _ _ Hle) as Hb.
  pose proof (prefix_NoDup (np_random w) _ _ Hle) as Hnd.
  destruct (permutation_prefix (np_random w) (shape0 X) (Z.to_nat k)) as [idx g].
  cbn in Hlen, Hb, Hnd.
  destruct (take_rows_ok (rows X) idx Hb) as (c & Hc & Hall).
  exists idx, g, c. repeat split; auto.
  apply Forall2_length in Hall. lia.
Qed.

End Configuration.

(** C1, as stated, fails for the iteration budget: with [max_iter = 0] (and a
    valid cluster count) [fit] raises nothing and stores centroids. *)
Lemma fit_accepts_zero_max_iter :
  (max_iter (self (fresh 1 0 None 0)) <= 0)%Z /\
  fit (column [0]) (fresh 1 0 None 0)
  = (Returned tt,
     {| self := with_centroids (column [0]) (__init__ 1 0 None); np_random := 1%nat |}).
Proof. split; [cbn; lia | reflexivity]. Qed.

(** C1, amended.  A negative cluster count and one above the number of points
    are refused by the draw of the initial sample, with [ValueError], before
    any iteration, and the object is left as it was.  An iteration budget of
    zero or less is not refused: with a cluster count between 1 and the number
    of points, [fit] returns without iterating, having stored the sampled
    points as centroids and left the labels alone. *)
Theorem fit_invalid_configuration (RS : RandomState) (RSS : RandomStateSpec RS)
    (X : ndarray) (w : world) :
  ((n_clusters (self w) < 0 \/ Z.of_nat (shape0 X) < n_clusters (self w))%Z ->
   exists w', fit X w = (Raised ValueError, w') /\ self w' = self w) /\
  ((1 <= n_clusters (self w) <= Z.of_nat (shape0 X))%Z ->
   (max_iter (self w) <= 0)%Z ->
   seed_ok (random_state (self w)) ->
   exists c w',
     fit X w = (Returned tt, w') /\
     centroids (self w') = Some {| ncols := ncols X; rows := c |} /\
     length c = Z.to_nat (n_clusters (self w)) /\
     Forall (fun r => In r (rows X)) c /\
     labels (self w') = labels (self w)).
Proof.
  split.
  - intros Hk. rewrite fit_eq, fit_traced_eq.
    destruct (seed_if_configured_cases (random_state (self w)) w) as [[g Hs]|Hs]; rewrite Hs.
    + unfold np_random_choice. cbn [np_random self].
      destruct (n_clusters (self w) <? 0)%Z eqn:H1.
      * eexists. split; reflexivity.
      * assert (H2 : (Z.of_nat (shape0 X) <? n_clusters (self w))%Z = true).
        { apply Z.ltb_lt. apply Z.ltb_ge in H1. lia. }
        rewrite H2. eexists. split; reflexivity.
    + eexists. split; reflexivity.
  - intros Hk Hm Hseed. rewrite fit_eq, fit_traced_eq.
    destruct (seed_if_configured_ok (random_state (self w)) w Hseed) as [g Hs]. rewrite Hs.
    destruct (initial_sample RSS X (n_clusters (self w))
                {| self := self w; np_random := g |}) as (idx & g' & c & Hch & Hc & Hall & Hlen & _).
    { lia. }
    rewrite Hch, Hc.
    assert (Hz : Z.to_nat (max_iter (self w)) = 0%nat) by lia.
    rewrite Hz. cbn.
    exists c. eexists. split; [reflexivity|]. cbn. repeat split; auto.
    clear - Hall. induction Hall as [|i r idx c Hr _ IH]; constructor; auto.
    eapply nth_error_In; eauto.
Qed.

Lemma fit_invalid_configuration_witness :
  (exists w', fit (column [0]) (fresh 2 300 None 0) = (Raised ValueError, w') /\
              self w' = self (fresh 2 300 None 0)) /\
  (exists c w',
     fit (column [0; 1]) (fresh 2 0 (Some 42%Z) 0) = (Returned tt, w') /\
     centroids (self w') = Some {| ncols := 1; rows := c |} /\
     length c = 2%nat /\
     Forall (fun r => In r (rows (column [0; 1]))) c /\
     labels (self w') = None).
Proof.
  split.
  - apply (fit_invalid_configuration Rotating Rotating_spec (column [0]) (fresh 2 300 None 0)).
    right. cbn. lia.
  - apply (fit_invalid_configuration Rotating Rotating_spec (column [0; 1])
             (fresh 2 0 (Some 42%Z) 0)).
    + cbn. lia.
    + cbn. lia.
    + cbn. lia.
Defined.

(** ** Labels after [fit] *)

Section Labels.

Context {RS : RandomState}.

(** An assignment step against [K >= 1] centroids of the points' dimension
    returns one label per point, each below [K]; NaN distances included. *)
Lemma labels_for_labelling (X C : ndarray) :
  ncols C = ncols X ->
  rows C <> [] ->
  exists l, labels_for X (Some C) = Returned l /\ labelling X (Z.of_nat (shape0 C)) l.
Proof.
  intros Hd HC. unfold labels_for, distances_to.
  assert (Hb : np.broadcastable (ncols X) (ncols C) = true).
  { unfold np.broadcastable. rewrite Hd, Nat.eqb_refl. reflexivity. }
  rewrite Hb. unfold np.argmin_axis1. cbn [ncols rows].
  assert (HK : Nat.eqb (shape0 C) 0 = false).
  { unfold shape0. destruct (rows C); [congruence | reflexivity]. }
  rewrite HK. eexists. split; [reflexivity|]. split.
  - unfold shape0. now rewrite !length_map.
  - rewrite map_map. apply Forall_forall. intros j Hj.
    apply in_map_iff in Hj. destruct Hj as (x & <- & _).
    pose proof (ArgminFacts.argmin_bound (map (euclidean x) (rows C))) as Hlt.
    rewrite length_map in Hlt. unfold shape0.
    assert (map (euclidean x) (rows C) <> []) by (destruct (rows C); [congruence | discriminate]).
    specialize (Hlt H). lia.
Qed.

(** The loop keeps [K] centroids of the points' dimension, and ends with a
    labelling as soon as it has run once. *)
Lemma fit_loop_labelling (X : ndarray) (b done : nat) (w : world) (C : ndarray) :
  centroids (self w) = Some C ->
  ncols C = ncols X ->
  shape0 C = Z.to_nat (n_clusters (self w)) ->
  (1 <= n_clusters (self w))%Z ->
  (b = 0%nat -> exists l, labels (self w) = Some l /\ labelling X (n_clusters (self w)) l) ->
  exists info w' l,
    fit_loop b X done w = (Returned info, w') /\
    labels (self w') = Some l /\
    labelling X (n_clusters (self w)) l.
Proof.
  revert done w C.
  induction b as [|b IH]; intros done w C Hc Hd HK Hk Hl.
  - destruct (Hl eq_refl) as (l & Hl1 & Hl2).
    exists {| iterations_run := done; converged := false |}, w, l. auto.
  - destruct (labels_for_labelling X C Hd) as (l & Hl1 & Hl2).
    { unfold shape0 in HK. destruct (rows C); [cbn in HK; lia | discriminate]. }
    assert (Hl3 : labelling X (n_clusters (self w)) l).
    { replace (n_clusters (self w)) with (Z.of_nat (shape0 C)) by lia. exact Hl2. }
    rewrite (fit_loop_step b X done w C l Hc Hl1). cbn zeta.
    destruct (np.allclose C (means_of X l (n_clusters (self w)))).
    + do 2 eexists. exists l. split; [reflexivity|]. auto.
    + destruct (IH (S done)
                  {| self := with_centroids (means_of X l (n_clusters (self w)))
                               (with_labels l (self w));
                     np_random := np_random w |}
                  (means_of X l (n_clusters (self w))))
        as (info & w' & l' & Hrun & Hl1' & Hl2'); cbn; auto.
      * unfold shape0, means_of. cbn. now rewrite length_map, length_seq.
      * intros _. exists l. auto.
      * exists info, w', l'. auto.
Qed.

End Labels.

(** C8: for a valid configuration ([1 <= K <= N] and at least one
    iteration) the labels [fit] leaves when it returns hold one centroid index
    per point, each in [[0, K)]; and [fit] does return when the seed is one
    numpy accepts, or none.  The same holds for the labels of every assignment
    step along the way: each is computed against [K] centroids of the points'
    dimension. *)
Theorem fit_labels_valid (RS : RandomState) (RSS : RandomStateSpec RS)
    (X : ndarray) (w : world) :
  (1 <= n_clusters (self w) <= Z.of_nat (shape0 X))%Z ->
  (1 <= max_iter (self w))%Z ->
  (seed_ok (random_state (self w)) -> exists w', fit X w = (Returned tt, w')) /\
  (forall w', fit X w = (Returned tt, w') ->
     exists l, labels (self w') = Some l /\ labelling X (n_clusters (self w)) l) /\
  (forall (w1 : world) C,
     centroids (self w1) = Some C ->
     ncols C = ncols X ->
     shape0 C = Z.to_nat (n_clusters (self w)) ->
     exists l, _assign_labels X w1 = (Returned l, w1) /\
               labelling X (n_clusters (self w)) l).
Proof.
  intros Hk Hm.
  assert (Hcore : forall g,
    seed_if_configured (random_state (self w)) w
    = (Returned tt, {| self := self w; np_random := g |}) ->
    exists w' l, fit X w = (Returned tt, w') /\
                 labels (self w') = Some l /\ labelling X (n_clusters (self w)) l).
  { intros g Hs. rewrite fit_eq, fit_traced_eq, Hs.
    destruct (initial_sample RSS X (n_clusters (self w))
                {| self := self w; np_random := g |}) as (idx & g' & c & Hch & Hc & _ & Hlen & _).
    { lia. }
    rewrite Hch, Hc.
    destruct (fit_loop_labelling X (Z.to_nat (max_iter (self w))) 0
                {| self := with_centroids {| ncols := ncols X; rows := c |} (self w);
                   np_random := np_random {| self := self w; np_random := g' |} |}
                {| ncols := ncols X; rows := c |})
      as (info & w' & l & Hrun & Hl1 & Hl2); cbn; auto.
    + lia.
    + intros Hz. lia.
    + cbn in Hrun. rewrite Hrun. exists w', l. auto. }
  split; [|split].
  - intros Hseed.
    destruct (seed_if_configured_ok (random_state (self w)) w Hseed) as [g Hs].
    destruct (Hcore g Hs) as (w' & l & Hfit & _). now exists w'.
  - intros w' Hfit.
    destruct (seed_if_configured_cases (random_state (self w)) w) as [[g Hs]|Hs].
    + destruct (Hcore g Hs) as (w'' & l & Hfit' & Hl).
      rewrite Hfit in Hfit'. injection Hfit' as <-. now exists l.
    + rewrite fit_eq, fit_traced_eq, Hs in Hfit. discriminate Hfit.
  - intros w1 C Hc Hd HK.
    destruct (labels_for_labelling X C Hd) as (l & Hl1 & Hl2).
    { unfold shape0 in HK. destruct (rows C); [cbn in HK; lia | discriminate]. }
    exists l. rewrite _assign_labels_eq, Hc. split; [now rewrite Hl1|].
    replace (n_clusters (self w)) with (Z.of_nat (shape0 C)) by lia. exact Hl2.
Qed.

Lemma fit_labels_valid_witness :
  (seed_ok (Some 42%Z) ->
   exists w', fit (column [0; 1; 10]) (fresh 2 300 (Some 42%Z) 0) = (Returned tt, w')) /\
  (forall w', fit (column [0; 1; 10]) (fresh 2 300 (Some 42%Z) 0) = (Returned tt, w') ->
     exists l, labels (self w') = Some l /\ labelling (column [0; 1; 10]) 2 l) /\
  (forall (w1 : world) C,
     centroids (self w1) = Some C ->
     ncols C = ncols (column [0; 1; 10]) ->
     shape0 C = Z.to_nat 2 ->
     exists l, _assign_labels (column [0; 1; 10]) w1 = (Returned l, w1) /\
               labelling (column [0; 1; 10]) 2 l).
Proof.
  apply (fit_labels_valid Rotating Rotating_spec (column [0; 1; 10])
           (fresh 2 300 (Some 42%Z) 0)).
  - cbn. lia.
  - cbn. lia.
Defined.

(** ** [predict] on the training points *)

Section Reproduce.

Context {RS : RandomState}.

(** A loop that ends on the convergence check leaves the labels of its last
    assignment step next to the centroids they were computed against. *)
Lemma fit_loop_converged (X : ndarray) (b done : nat) (w w' : world) (info : run_info) :
  fit_loop b X done w = (Returned info, w') ->
  converged info = true ->
  exists l, labels (self w') = Some l /\
            labels_for X (centroids (self w')) = Returned l.
Proof.
  revert done w.
  induction b as [|b IH]; intros done w Hrun Hconv.
  - cbn in Hrun. inversion Hrun; subst. discriminate Hconv.
  - destruct (labels_for X (centroids (self w))) as [l|e] eqn:Hl.
    + destruct (centroids (self w)) as [C|] eqn:Hc.
      * rewrite (fit_loop_step b X done w C l Hc Hl) in Hrun. cbn zeta in Hrun.
        destruct (np.allclose C (means_of X l (n_clusters (self w)))).
        -- inversion Hrun; subst. exists l. cbn. now rewrite Hc.
        -- eapply IH; eauto.
      * cbn [fit_loop] in Hrun. unfold bind at 1 in Hrun.
        rewrite _assign_labels_eq, Hc, Hl in Hrun.
        unfold bind, set_labels in Hrun.
        erewrite _update_centroids_eq in Hrun;
          [ | reflexivity | exact (labels_for_length _ _ _ Hl) ].
        unfold centroids_allclose, bind, attr, ret, raise in Hrun.
        cbn in Hrun. rewrite Hc in Hrun. discriminate Hrun.
    + rewrite (fit_loop_raise b X done w e Hl) in Hrun. discriminate Hrun.
Qed.

End Reproduce.

(** C4, as stated, fails when the iteration budget runs out: the centroids
    are replaced after the last assignment step, and [predict] assigns against
    the new ones.  Three points 0, 1, 10, two clusters started at 0 and 1, one
    iteration: [fit] leaves labels 0, 1, 1 and centroids 0 and 5.5, for which
    [predict] answers 0, 0, 1. *)
Lemma predict_differs_when_budget_exhausted :
  fit (column [0; 1; 10]) (fresh 2 1 None 0)
  = (Returned tt,
     {| self := mk_KMeans 2 1 None (Some (column [0; 5.5])) (Some [0; 1; 1]%nat);
        np_random := 1%nat |}) /\
  fst (predict (column [0; 1; 10])
         {| self := mk_KMeans 2 1 None (Some (column [0; 5.5])) (Some [0; 1; 1]%nat);
            np_random := 1%nat |})
  = Returned [0; 0; 1]%nat.
Proof. split; vm_compute; reflexivity. Qed.

(** C4, amended: when [fit] ends on its convergence check, [predict] on the
    training points returns the stored labels. *)
Theorem predict_reproduces_converged_labels (RS : RandomState)
    (X : ndarray) (w w' : world) (info : run_info) :
  fit_traced X w = (Returned info, w') ->
  converged info = true ->
  exists l, labels (self w') = Some l /\ predict X w' = (Returned l, w').
Proof.
  intros Hrun Hconv. rewrite fit_traced_eq in Hrun.
  destruct (seed_if_configured (random_state (self w)) w) as [[[]|e] w1]; [|discriminate].
  destruct (np_random_choice (shape0 X) (n_clusters (self w)) w1) as [[idx|e] w2];
    [|discriminate].
  destruct (np.take_rows (rows X) idx) as [c|e]; [|discriminate].
  destruct (fit_loop_converged X _ _ _ _ _ Hrun Hconv) as (l & Hl1 & Hl2).
  exists l. split; [exact Hl1|].
  unfold predict. now rewrite _assign_labels_eq, Hl2.
Qed.

Lemma predict_reproduces_converged_labels_witness :
  exists l,
    labels (self {| self := mk_KMeans 2 300 None (Some (column [0.5; 10])) (Some [0; 0; 1]%nat);
                    np_random := 1%nat |}) = Some l /\
    predict (column [0; 1; 10])
      {| self := mk_KMeans 2 300 None (Some (column [0.5; 10])) (Some [0; 0; 1]%nat);
         np_random := 1%nat |}
    = (Returned l,
       {| self := mk_KMeans 2 300 None (Some (column [0.5; 10])) (Some [0; 0; 1]%nat);
          np_random := 1%nat |}).
Proof.
  apply (predict_reproduces_converged_labels Rotating (column [0; 1; 10])
           (fresh 2 300 None 0) _ {| iterations_run := 3; converged := true |}).
  - vm_compute. reflexivity.
  - reflexivity.
Defined.

(** ** One cluster *)

Section SingleCluster.

Context {RS : RandomState}.

(** Against a single centroid every point gets label 0. *)
Lemma labels_for_single (X : ndarray) (c : list float) :
  labels_for X (Some {| ncols := ncols X; rows := [c] |})
  = Returned (map (fun _ => 0%nat) (rows X)).
Proof.
  unfold labels_for, distances_to. cbn [ncols rows].
  assert (Hb : np.broadcastable (ncols X) (ncols X) = true).
  { unfold np.broadcastable. rewrite Nat.eqb_refl. reflexivity. }
  rewrite Hb. unfold np.argmin_axis1, shape0. cbn [ncols rows length Nat.eqb map].
  f_equal. rewrite map_map. apply map_ext. intros x.
  unfold np.argmin. cbn [map np.argmin_scan]. now destruct (is_nan (euclidean x c)).
Qed.

Lemma rows_where_all (rs : list (list float)) :
  np.rows_where rs (map (fun _ => 0%nat) rs) 0 = rs.
Proof.
  unfold np.rows_where. induction rs as [|r rs IH]; cbn; [reflexivity|].
  now f_equal.
Qed.

Lemma means_of_single (X : ndarray) :
  means_of X (map (fun _ => 0%nat) (rows X)) 1 = mean_of_all X.
Proof.
  unfold means_of, mean_of_all.
  change (seq 0 (Z.to_nat 1)) with [0%nat]. cbn [map].
  now rewrite rows_where_all.
Qed.

(** Once the centroid is the mean, every further iteration recomputes the
    same mean: the loop ends with it, whatever its budget. *)
Lemma fit_loop_at_mean (X : ndarray) (b done : nat) (w : world) :
  n_clusters (self w) = 1%Z ->
  centroids (self w) = Some (mean_of_all X) ->
  exists info w', fit_loop b X done w = (Returned info, w') /\
                  centroids (self w') = Some (mean_of_all X).
Proof.
  revert done w.
  induction b as [|b IH]; intros done w Hk Hc.
  - do 2 eexists. split; [reflexivity | exact Hc].
  - rewrite (fit_loop_step b X done w _ _ Hc (labels_for_single X _)).
    rewrite Hk, means_of_single. cbn zeta.
    destruct (np.allclose (mean_of_all X) (mean_of_all X)).
    + do 2 eexists. split; [reflexivity | exact Hc].
    + apply IH; reflexivity || exact Hk.
Qed.

(** An array without NaN is close to itself. *)
Lemma allclose_refl (a : ndarray) :
  Forall (Forall (fun v => is_nan v = false)) (rows a) -> np.allclose a a = true.
Proof.
  unfold np.allclose. intros H.
  induction H as [|r rs Hr _ IH]; cbn; [reflexivity|].
  rewrite IH, andb_true_r. clear IH.
  induction Hr as [|v r Hv _ IH]; cbn; [reflexivity|].
  rewrite IH, andb_true_r. unfold np.isclose.
  rewrite (F64Facts.eqb_refl v Hv). apply orb_true_r.
Qed.

End SingleCluster.

(** C6, as stated, fails on the iteration count: from the points 0 and 2 the
    first iteration moves the centroid to the mean 1, and it takes a second
    one to find it unchanged. *)
Lemma fit_single_cluster_runs_twice :
  fit_traced (column [0; 2]) (fresh 1 300 None 0)
  = (Returned {| iterations_run := 2; converged := true |},
     {| self := mk_KMeans 1 300 None (Some (column [1])) (Some [0; 0]%nat);
        np_random := 1%nat |}).
Proof. vm_compute. reflexivity. Qed.

(** The stated centroid fails too when the sampled point is already within
    tolerance of the mean: from the points 0 and 1e-08 the run ends in its first
    iteration with the centroid still at 0, while the mean is 5e-09. *)
Lemma fit_single_cluster_keeps_close_point :
  fit_traced (column [0; np.atol]) (fresh 1 300 None 0)
  = (Returned {| iterations_run := 1; converged := true |},
     {| self := mk_KMeans 1 300 None (Some (column [0])) (Some [0; 0]%nat);
        np_random := 1%nat |}) /\
  mean_of_all (column [0; np.atol]) = column [0x1.5798ee2308c3ap-28].
Proof. split; vm_compute; reflexivity. Qed.

(** C6, amended.  With one cluster, at least one point and at least one
    iteration, [fit] starts from one of the points and ends as follows.  If
    that point is within [np.allclose]'s tolerance of the mean of all points,
    the first iteration ends the run and the centroid stays that point.
    Otherwise the centroid ends as the mean of all points: after the one
    iteration of a budget of 1, or after a second iteration that finds the
    mean unchanged (the mean holding no NaN). *)
Theorem fit_single_cluster (RS : RandomState) (RSS : RandomStateSpec RS)
    (X : ndarray) (w : world) :
  n_clusters (self w) = 1%Z ->
  rows X <> [] ->
  (1 <= max_iter (self w))%Z ->
  seed_ok (random_state (self w)) ->
  exists i x info w',
    nth_error (rows X) i = Some x /\
    fit_traced X w = (Returned info, w') /\
    if np.allclose {| ncols := ncols X; rows := [x] |} (mean_of_all X)
    then centroids (self w') = Some {| ncols := ncols X; rows := [x] |} /\
         iterations_run info = 1%nat /\ converged info = true
    else centroids (self w') = Some (mean_of_all X) /\
         (max_iter (self w) = 1%Z ->
          iterations_run info = 1%nat /\ converged info = false) /\
         ((2 <= max_iter (self w))%Z ->
          Forall (fun v => is_nan v = false) (np.mean_axis0 (ncols X) (rows X)) ->
          iterations_run info = 2%nat /\ converged info = true).
Proof.
  intros Hk HX Hm Hseed.
  rewrite fit_traced_eq.
  destruct (seed_if_configured_ok (random_state (self w)) w Hseed) as [g Hs]. rewrite Hs.
  destruct (initial_sample RSS X (n_clusters (self w))
              {| self := self w; np_random := g |}) as (idx & g' & c & Hch & Hc & Hall & Hlen & _).
  { rewrite Hk. unfold shape0. destruct (rows X); [congruence | cbn; lia]. }
  rewrite Hch, Hc. rewrite Hk in Hlen.
  destruct c as [|x [|? ?]]; try discriminate Hlen.
  inversion Hall as [|i ? idx' ? Hx Hrest]; subst.
  exists i, x.
  destruct (Z.to_nat (max_iter (self w))) as [|b] eqn:Hb; [lia|].
  erewrite fit_loop_step; [ | reflexivity | apply labels_for_single ].
  cbn [self n_clusters with_centroids np_random]. rewrite Hk, means_of_single. cbn zeta.
  destruct (np.allclose {| ncols := ncols X; rows := [x] |} (mean_of_all X)).
  - do 2 eexists. split; [exact Hx|]. split; [reflexivity|]. cbn. auto.
  - destruct b as [|b].
    + do 2 eexists. split; [exact Hx|]. split; [reflexivity|]. cbn.
      split; [reflexivity|]. split; [auto | lia].
    + erewrite fit_loop_step; [ | reflexivity | apply labels_for_single ].
      cbn [self n_clusters with_centroids with_labels np_random]. rewrite Hk, means_of_single.
      cbn zeta.
      destruct (np.allclose (mean_of_all X) (mean_of_all X)) eqn:Hclose.
      * do 2 eexists. split; [exact Hx|]. split; [reflexivity|]. cbn.
        split; [reflexivity|]. split; [lia | auto].
      * match goal with
        | |- context [fit_loop b X 2 ?W] =>
            destruct (fit_loop_at_mean X b 2 W) as (info & w' & Hrun & Hfin);
              [exact Hk | reflexivity |]
        end.
        exists info, w'. split; [exact Hx|]. split; [exact Hrun|].
        split; [exact Hfin|]. split; [lia|].
        intros _ Hnan.
        rewrite allclose_refl in Hclose; [discriminate|].
        cbn. constructor; [exact Hnan | constructor].
Qed.

Lemma fit_single_cluster_witness :
  exists i x info w',
    nth_error (rows (column [0; 2])) i = Some x /\
    fit_traced (column [0; 2]) (fresh 1 300 None 0) = (Returned info, w') /\
    if np.allclose {| ncols := 1; rows := [x] |} (mean_of_all (column [0; 2]))
    then centroids (self w') = Some {| ncols := 1; rows := [x] |} /\
         iterations_run info = 1%nat /\ converged info = true
    else centroids (self w') = Some (mean_of_all (column [0; 2])) /\
         (300%Z = 1%Z -> iterations_run info = 1%nat /\ converged info = false) /\
         ((2 <= 300)%Z ->
          Forall (fun v => is_nan v = false) (np.mean_axis0 1 (rows (column [0; 2]))) ->
          iterations_run info = 2%nat /\ converged info = true).
Proof.
  apply (fit_single_cluster Rotating Rotating_spec (column [0; 2]) (fresh 1 300 None 0)).
  - reflexivity.
  - discriminate.
  - cbn. lia.
  - exact I.
Defined.

(** ** A cluster that receives no point *)

(** C2: the code does not raise when a centroid is assigned no point.  Two
    equal points and two clusters: both initial centroids are that point,
    every point takes label 0, and the mean of the (empty) cluster 1 is
    computed as 0/0.  [_update_centroids] returns the NaN centroid, and [fit]
    runs to the end of its budget and returns with it. *)
Theorem update_centroids_empty_cluster_nan :
  _update_centroids (column [0; 0])
    {| self := mk_KMeans 2 300 None (Some (column [0; 0])) (Some [0; 0]%nat);
       np_random := 0%nat |}
  = (Returned (column [0; nan]),
     {| self := mk_KMeans 2 300 None (Some (column [0; 0])) (Some [0; 0]%nat);
        np_random := 0%nat |}) /\
  fit (column [0; 0]) (fresh 2 1 None 0)
  = (Returned tt,
     {| self := mk_KMeans 2 1 None (Some (column [0; nan])) (Some [0; 0]%nat);
        np_random := 1%nat |}) /\
  fit (column [0; 0]) (fresh 2 300 None 0)
  = (Returned tt,
     {| self := mk_KMeans 2 300 None (Some (column [nan; 0])) (Some [1; 1]%nat);
        np_random := 1%nat |}).
Proof. repeat split; vm_compute; reflexivity. Qed.

(** C5: the total within-cluster squared distance can rise from one
    iteration to the next.  Points 0, 0, 10 and three clusters: after the
    first iteration the points sit on their centroids (total 0) and the
    cluster started at the second 0 is empty, so its centroid is NaN.  In the
    second iteration [np.argmin] gives every point the index of the NaN
    distance, and the update puts that centroid at the mean of all points:
    the total is above 66.  (A run with [max_iter = t] is the first [t]
    iterations of any longer run from the same generator state.) *)
Theorem within_cluster_ss_rises :
  within_cluster_ss (column [0; 0; 10])
    (self (snd (fit (column [0; 0; 10]) (fresh 3 1 None 0)))) = Some 0 /\
  exists s,
    within_cluster_ss (column [0; 0; 10])
      (self (snd (fit (column [0; 0; 10]) (fresh 3 2 None 0)))) = Some s /\
    (66 <? s) = true /\
    (s <=? 0) = false.
Proof.
  split; [vm_compute; reflexivity|].
  eexists. split; [vm_compute; reflexivity|]. split; vm_compute; reflexivity.
Qed.

(** ** Seeding *)

(** C9: a configured seed of 0 is not used.  [if self.random_state:] is
    false for 0, the generator is left in whatever state it is in, and two
    runs on the same points differ with it: from one generator state the
    initial centroids are the points 0 and 1, from another 10 and 0, and the
    final centroids and labels come out in a different order. *)
Theorem fit_seed_zero_not_reproducible :
  fit (column [0; 1; 10]) (fresh 2 300 (Some 0%Z) 0)
  = (Returned tt,
     {| self := mk_KMeans 2 300 (Some 0%Z) (Some (column [0.5; 10])) (Some [0; 0; 1]%nat);
        np_random := 1%nat |}) /\
  fit (column [0; 1; 10]) (fresh 2 300 (Some 0%Z) 2)
  = (Returned tt,
     {| self := mk_KMeans 2 300 (Some 0%Z) (Some (column [10; 0.5])) (Some [1; 1; 0]%nat);
        np_random := 3%nat |}).
Proof. split; vm_compute; reflexivity. Qed.

(** X1: with any other seed, [fit] does not depend on the state the generator
    was in: the sample it draws, what it returns or raises, and the object it
    leaves are the same; and the sampled indices are distinct and within the
    points whenever the cluster count is. *)
Theorem fit_reproducible_with_nonzero_seed (RS : RandomState) (RSS : RandomStateSpec RS)
    (X : ndarray) (w1 w2 : world) (s : Z) :
  self w1 = self w2 ->
  random_state (self w1) = Some s ->
  s <> 0%Z ->
  let draw := fun w =>
    match np_random_seed s w with
    | (Returned _, w') => fst (np_random_choice (shape0 X) (n_clusters (self w)) w')
    | (Raised e, _) => Raised e
    end in
  draw w1 = draw w2 /\
  fst (fit X w1) = fst (fit X w2) /\
  self (snd (fit X w1)) = self (snd (fit X w2)) /\
  ((0 <= s < 2 ^ 32)%Z -> (0 <= n_clusters (self w1) <= Z.of_nat (shape0 X))%Z ->
   exists idx, draw w1 = Returned idx /\ NoDup idx /\
               length idx = Z.to_nat (n_clusters (self w1)) /\
               Forall (fun i => i < shape0 X) idx).
Proof.
  intros Hself Hrs Hs draw. subst draw. cbn beta.
  assert (Hseed : forall w, seed_if_configured (Some s) w = np_random_seed s w).
  { intros w. unfold seed_if_configured.
    destruct (s =? 0)%Z eqn:E; [apply Z.eqb_eq in E; contradiction | reflexivity]. }
  rewrite !fit_eq, !fit_traced_eq. rewrite <- Hself, Hrs, !Hseed.
  unfold np_random_seed.
  destruct ((0 <=? s) && (s <? 2 ^ 32))%Z eqn:Hrange.
  - rewrite <- Hself. repeat split.
    intros _ Hk.
    destruct (initial_sample RSS X (n_clusters (self w1))
                {| self := self w1; np_random := seeded s |} Hk)
      as (idx & g & c & Hch & Hc & Hall & Hlen & Hnd).
    rewrite Hch. cbn. exists idx. repeat split; auto.
    + apply Forall2_length in Hall. lia.
    + clear - Hall. unfold shape0.
      induction Hall as [|i r idx c Hr _ IH]; constructor; auto.
      apply nth_error_Some. congruence.
  - cbn. repeat split; auto.
    intros Hr. apply andb_false_iff in Hrange.
    destruct Hrange as [H|H]; [apply Z.leb_gt in H | apply Z.ltb_ge in H]; lia.
Qed.

Lemma fit_reproducible_with_nonzero_seed_witness :
  fst (fit (column [0; 1; 10]) (fresh 2 300 (Some 42%Z) 0))
  = fst (fit (column [0; 1; 10]) (fresh 2 300 (Some 42%Z) 2)) /\
  self (snd (fit (column [0; 1; 10]) (fresh 2 300 (Some 42%Z) 0)))
  = self (snd (fit (column [0; 1; 10]) (fresh 2 300 (Some 42%Z) 2))).
Proof.
  pose proof (fit_reproducible_with_nonzero_seed Rotating Rotating_spec (column [0; 1; 10])
                (fresh 2 300 (Some 42%Z) 0) (fresh 2 300 (Some 42%Z) 2) 42
                eq_refl eq_refl ltac:(discriminate)) as H.
  cbv zeta in H. destruct H as (_ & H1 & H2 & _). split; assumption.
Defined.

(** ** The iteration budget and the configuration *)

Section Budget.

Context {RS : RandomState}.

Lemma fit_loop_unset_centroids (b : nat) (X : ndarray) (done : nat) (w : world) (l : list nat) :
  centroids (self w) = None ->
  labels_for X None = Returned l ->
  fit_loop (S b) X done w
  = (Raised TypeError, {| self := with_labels l (self w); np_random := np_random w |}).
Proof.
  intros Hc Hl. cbn [fit_loop]. unfold bind at 1.
  rewrite _assign_labels_eq, Hc, Hl.
  unfold bind, set_labels.
  erewrite _update_centroids_eq;
    [ | reflexivity | exact (labels_for_length _ _ _ Hl) ].
  unfold centroids_allclose, bind, attr, ret, raise.
  cbn. now rewrite Hc.
Qed.

(** The loop runs at most [b] further iterations, all of them unless it ends
    on the convergence check. *)
Lemma fit_loop_budget (X : ndarray) (b done : nat) (w w' : world) (info : run_info) :
  fit_loop b X done w = (Returned info, w') ->
  (done <= iterations_run info <= done + b)%nat /\
  (converged info = false -> iterations_run info = (done + b)%nat) /\
  (converged info = true -> (done < iterations_run info)%nat).
Proof.
  revert done w.
  induction b as [|b IH]; intros done w Hrun.
  - cbn in Hrun. inversion Hrun; subst. cbn.
    split; [lia|]. split; [intros _; lia | discriminate].
  - destruct (labels_for X (centroids (self w))) as [l|e] eqn:Hl.
    + destruct (centroids (self w)) as [C|] eqn:Hc.
      * rewrite (fit_loop_step b X done w C l Hc Hl) in Hrun. cbn zeta in Hrun.
        destruct (np.allclose C (means_of X l (n_clusters (self w)))).
        -- inversion Hrun; subst. cbn.
           split; [lia|]. split; [discriminate | intros _; lia].
        -- apply IH in Hrun. destruct Hrun as (H1 & H2 & H3).
           split; [lia|]. split.
           ++ intros H. specialize (H2 H). lia.
           ++ intros H. specialize (H3 H). lia.
      * rewrite (fit_loop_unset_centroids b X done w l Hc Hl) in Hrun. discriminate Hrun.
    + rewrite (fit_loop_raise b X done w e Hl) in Hrun. discriminate Hrun.
Qed.

(** The loop writes [labels] and [centroids] only. *)
Lemma fit_loop_configuration (X : ndarray) (b done : nat) (w : world) :
  n_clusters (self (snd (fit_loop b X done w))) = n_clusters (self w) /\
  max_iter (self (snd (fit_loop b X done w))) = max_iter (self w) /\
  random_state (self (snd (fit_loop b X done w))) = random_state (self w).
Proof.
  revert done w.
  induction b as [|b IH]; intros done w.
  - cbn. auto.
  - destruct (labels_for X (centroids (self w))) as [l|e] eqn:Hl.
    + destruct (centroids (self w)) as [C|] eqn:Hc.
      * rewrite (fit_loop_step b X done w C l Hc Hl). cbn zeta.
        destruct (np.allclose C (means_of X l (n_clusters (self w)))).
        -- cbn. auto.
        -- match goal with
           | |- context [fit_loop b X (S done) ?W] => destruct (IH (S done) W) as (H1 & H2 & H3)
           end.
           rewrite H1, H2, H3. cbn. auto.
      * rewrite (fit_loop_unset_centroids b X done w l Hc Hl). cbn. auto.
    + rewrite (fit_loop_raise b X done w e Hl). cbn. auto.
Qed.

End Budget.

(** X2: a run of [fit] that returns has gone through at most [max_iter]
    iterations of its loop: all of them when it did not converge, and at least
    one when it did. *)
Theorem fit_iterations_within_budget (RS : RandomState)
    (X : ndarray) (w w' : world) (info : run_info) :
  fit_traced X w = (Returned info, w') ->
  iterations_run info <= Z.to_nat (max_iter (self w)) /\
  (converged info = false -> iterations_run info = Z.to_nat (max_iter (self w))) /\
  (converged info = true -> 1 <= iterations_run info).
Proof.
  intros Hrun. rewrite fit_traced_eq in Hrun.
  destruct (seed_if_configured (random_state (self w)) w) as [[[]|e] w1]; [|discriminate].
  destruct (np_random_choice (shape0 X) (n_clusters (self w)) w1) as [[idx|e] w2];
    [|discriminate].
  destruct (np.take_rows (rows X) idx) as [c|e]; [|discriminate].
  apply fit_loop_budget in Hrun. destruct Hrun as (H1 & H2 & H3).
  split; [lia|]. split.
  - intros H. specialize (H2 H). lia.
  - intros H. specialize (H3 H). lia.
Qed.

Lemma fit_iterations_within_budget_witness :
  (iterations_run {| iterations_run := 3; converged := true |}
   <= Z.to_nat (max_iter (self (fresh 2 300 None 0))))%nat /\
  (converged {| iterations_run := 3; converged := true |} = false ->
   iterations_run {| iterations_run := 3; converged := true |}
   = Z.to_nat (max_iter (self (fresh 2 300 None 0)))) /\
  (converged {| iterations_run := 3; converged := true |} = true ->
   (1 <= iterations_run {| iterations_run := 3; converged := true |})%nat).
Proof.
  apply (fit_iterations_within_budget Rotating (column [0; 1; 10]) (fresh 2 300 None 0)
           (@mk_world Rotating
              (mk_KMeans 2 300 None (Some (column [0.5; 10])) (Some [0; 0; 1]%nat)) 1%nat)
           {| iterations_run := 3; converged := true |}).
  vm_compute. reflexivity.
Defined.

(** X3: [fit] never changes the configuration of the object (cluster count,
    iteration budget, seed), whether it returns or raises. *)
Theorem fit_keeps_configuration (RS : RandomState) (X : ndarray) (w : world) :
  n_clusters (self (snd (fit X w))) = n_clusters (self w) /\
  max_iter (self (snd (fit X w))) = max_iter (self w) /\
  random_state (self (snd (fit X w))) = random_state (self w).
Proof.
  rewrite fit_eq, fit_traced_eq.
  pose proof (seed_if_configured_self (random_state (self w)) w) as H1.
  destruct (seed_if_configured (random_state (self w)) w) as [[[]|e] w1]; cbn in H1.
  - pose proof (np_random_choice_self (shape0 X) (n_clusters (self w)) w1) as H2.
    destruct (np_random_choice (shape0 X) (n_clusters (self w)) w1) as [[idx|e] w2]; cbn in H2.
    + destruct (np.take_rows (rows X) idx) as [c|e].
      * match goal with
        | |- context [fit_loop ?b X 0 ?W] =>
            pose proof (fit_loop_configuration X b 0 W) as H3;
            destruct (fit_loop b X 0 W) as [[info|e] w3]
        end; cbn in H3 |- *; exact H3.
      * cbn. now rewrite H2, H1.
    + cbn. now rewrite H2, H1.
  - cbn. now rewrite H1.
Qed.

(** ** The centroids [fit] leaves *)

Section Shapes.

Context {RS : RandomState}.

Lemma sum_axis0_length (d : nat) (rs : list (list float)) :
  Forall (fun r => length r = d) rs -> length (np.sum_axis0 d rs) = d.
Proof.
  unfold np.sum_axis0. intros H.
  destruct (Nat.eqb d 1) eqn:Hd; [now apply Nat.eqb_eq in Hd; subst|].
  assert (Hgen : forall acc, length acc = d ->
            length (fold_left (fun acc r => map (fun p => fst p + snd p) (combine acc r)) rs acc)
            = d).
  { induction H as [|r rs Hr _ IH]; intros acc Hacc; cbn; [exact Hacc|].
    apply IH. rewrite length_map, length_combine. lia. }
  apply Hgen, repeat_length.
Qed.

Lemma rows_where_incl (rs : list (list float)) (l : list nat) (i : nat) (r : list float) :
  In r (np.rows_where rs l i) -> In r rs.
Proof.
  unfold np.rows_where. intros H.
  apply in_map_iff in H. destruct H as ([r' j] & <- & H).
  apply filter_In in H. destruct H as [H _].
  now apply in_combine_l in H.
Qed.

(** What an update step returns: [K] rows, of the points' dimension. *)
Lemma means_of_shape (X : ndarray) (l : list nat) (k : Z) :
  shape0 (means_of X l k) = Z.to_nat k /\
  ncols (means_of X l k) = ncols X /\
  (well_shaped X -> well_shaped (means_of X l k)).
Proof.
  unfold shape0, well_shaped, means_of. cbn.
  split; [now rewrite length_map, length_seq|]. split; [reflexivity|].
  intros HX. apply Forall_forall. intros r Hr.
  apply in_map_iff in Hr. destruct Hr as (i & <- & _).
  unfold np.mean_axis0. rewrite length_map. apply sum_axis0_length.
  apply Forall_forall. intros r Hr. apply rows_where_incl in Hr.
  rewrite Forall_forall in HX. now apply HX.
Qed.

(** The loop keeps the shape of the centroids. *)
Lemma fit_loop_shape (X : ndarray) (b done : nat) (w w' : world) (info : run_info) (C : ndarray) :
  centroids (self w) = Some C ->
  shape0 C = Z.to_nat (n_clusters (self w)) ->
  ncols C = ncols X ->
  (well_shaped X -> well_shaped C) ->
  fit_loop b X done w = (Returned info, w') ->
  exists C', centroids (self w') = Some C' /\
             shape0 C' = Z.to_nat (n_clusters (self w)) /\
             ncols C' = ncols X /\
             (well_shaped X -> well_shaped C').
Proof.
  revert done w C.
  induction b as [|b IH]; intros done w C Hc HK Hd Hws Hrun.
  - cbn in Hrun. inversion Hrun; subst. exists C. auto.
  - destruct (labels_for X (centroids (self w))) as [l|e] eqn:Hl.
    + rewrite Hc in Hl.
      rewrite (fit_loop_step b X done w C l Hc Hl) in Hrun. cbn zeta in Hrun.
      destruct (np.allclose C (means_of X l (n_clusters (self w)))).
      * inversion Hrun; subst. exists C. cbn. auto.
      * destruct (means_of_shape X l (n_clusters (self w))) as (H1 & H2 & H3).
        eapply IH in Hrun; [exact Hrun | reflexivity | exact H1 | exact H2 | exact H3].
    + rewrite (fit_loop_raise b X done w e Hl) in Hrun. discriminate Hrun.
Qed.

(** A run of [fit] up to its loop: either it raises [ValueError] and leaves
    the object alone, or it enters the loop with the sampled rows as
    centroids. *)
Lemma fit_start (RSS : RandomStateSpec RS) (X : ndarray) (w : world) :
  (exists w', fit_traced X w = (Raised ValueError, w') /\ self w' = self w) \/
  (exists c g,
     (0 <= n_clusters (self w) <= Z.of_nat (shape0 X))%Z /\
     length c = Z.to_nat (n_clusters (self w)) /\
     Forall (fun r => In r (rows X)) c /\
     fit_traced X w
     = fit_loop (Z.to_nat (max_iter (self w))) X 0
         {| self := with_centroids {| ncols := ncols X; rows := c |} (self w);
            np_random := g |}).
Proof.
  rewrite fit_traced_eq.
  destruct (seed_if_configured_cases (random_state (self w)) w) as [[g Hs]|Hs]; rewrite Hs.
  - destruct (n_clusters (self w) <? 0)%Z eqn:H1.
    { left. unfold np_random_choice. rewrite H1. eexists. split; reflexivity. }
    destruct (Z.of_nat (shape0 X) <? n_clusters (self w))%Z eqn:H2.
    { left. unfold np_random_choice. rewrite H1, H2. eexists. split; reflexivity. }
    apply Z.ltb_ge in H1, H2.
    destruct (initial_sample RSS X (n_clusters (self w))
                {| self := self w; np_random := g |})
      as (idx & g' & c & Hch & Hc & Hall & Hlen & _); [lia|].
    rewrite Hch, Hc. right. exists c, g'. repeat split; auto; try lia.
    clear - Hall. induction Hall as [|i r idx c Hr _ IH]; constructor; auto.
    eapply nth_error_In; eauto.
  - left. eexists. split; reflexivity.
Qed.

Lemma fit_returned_centroids (RSS : RandomStateSpec RS) (X : ndarray) (w w' : world) :
  fit X w = (Returned tt, w') ->
  exists C, centroids (self w') = Some C /\
            Z.of_nat (shape0 C) = n_clusters (self w) /\
            ncols C = ncols X /\
            (well_shaped X -> well_shaped C).
Proof.
  intros Hfit. rewrite fit_eq in Hfit.
  destruct (fit_start RSS X w) as [(w1 & Hr & _)|(c & g & Hk & Hlen & Hin & Hr)];
    rewrite Hr in Hfit; [discriminate|].
  match type of Hfit with
  | context [fit_loop ?b X 0 ?W] => destruct (fit_loop b X 0 W) as [[info|e] w1] eqn:Hrun
  end; [|discriminate].
  injection Hfit as <-.
  apply (fit_loop_shape X _ _ _ _ _ {| ncols := ncols X; rows := c |}) in Hrun; cbn; auto.
  - destruct Hrun as (C & H1 & H2 & H3 & H4). cbn in H2.
    exists C. repeat split; auto. lia.
  - intros HX. unfold well_shaped. cbn.
    rewrite Forall_forall in Hin |- *. intros r Hr'.
    unfold well_shaped in HX. rewrite Forall_forall in HX. auto.
Qed.

End Shapes.

(** X4: whenever [fit] returns, the object holds exactly [n_clusters]
    centroids of the points' dimension (as the test of [kmeans.py] checks on
    its data); their rows are as long as the points' when the points form a
    proper array. *)
Theorem fit_centroids_shape (RS : RandomState) (RSS : RandomStateSpec RS)
    (X : ndarray) (w w' : world) :
  fit X w = (Returned tt, w') ->
  exists C, centroids (self w') = Some C /\
            Z.of_nat (shape0 C) = n_clusters (self w) /\
            ncols C = ncols X /\
            (well_shaped X -> well_shaped C).
Proof. exact (fit_returned_centroids RSS X w w'). Qed.

Lemma fit_centroids_shape_witness :
  exists C, centroids (self two_blobs_fitted) = Some C /\
            Z.of_nat (shape0 C) = n_clusters (self (fresh 2 300 None 0)) /\
            ncols C = ncols two_blobs /\
            (well_shaped two_blobs -> well_shaped C).
Proof.
  apply (fit_centroids_shape Rotating Rotating_spec two_blobs (fresh 2 300 None 0)
           two_blobs_fitted).
  vm_compute. reflexivity.
Defined.

(** ** [fit], then [predict] *)

(** X5: after a [fit] that returned, with at least one cluster, [predict]
    on any point set of the training points' dimension returns one label per
    point, each in [[0, K)], and changes nothing (the use the test and the
    main block of [kmeans.py] make of the class). *)
Theorem predict_after_fit (RS : RandomState) (RSS : RandomStateSpec RS)
    (X X' : ndarray) (w w' : world) :
  fit X w = (Returned tt, w') ->
  (1 <= n_clusters (self w))%Z ->
  ncols X' = ncols X ->
  exists l, predict X' w' = (Returned l, w') /\
            labelling X' (n_clusters (self w)) l.
Proof.
  intros Hfit Hk Hd.
  destruct (fit_returned_centroids RSS X w w' Hfit) as (C & Hc & HK & HD & _).
  destruct (labels_for_labelling X' C) as (l & Hl1 & Hl2).
  - congruence.
  - unfold shape0 in HK. destruct (rows C); [cbn in HK; lia | discriminate].
  - exists l. unfold predict. rewrite _assign_labels_eq, Hc, Hl1.
    split; [reflexivity|]. now rewrite <- HK.
Qed.

Lemma predict_after_fit_witness :
  exists l,
    predict {| ncols := 2; rows := [[1; 1]; [9; 9]] |} two_blobs_fitted
    = (Returned l, two_blobs_fitted) /\
    labelling {| ncols := 2; rows := [[1; 1]; [9; 9]] |} 2 l.
Proof.
  apply (predict_after_fit Rotating Rotating_spec two_blobs
           {| ncols := 2; rows := [[1; 1]; [9; 9]] |} (fresh 2 300 None 0) two_blobs_fitted).
  - vm_compute. reflexivity.
  - cbn. lia.
  - reflexivity.
Defined.

(** X6: [predict] labels each point on its own: if it returns labels for
    two point sets of one dimension, then for the two put one after the other
    it returns the two label lists one after the other. *)
Theorem predict_concatenation (RS : RandomState) (w : world) (d : nat)
    (r1 r2 : list (list float)) (l1 l2 : list nat) :
  fst (predict {| ncols := d; rows := r1 |} w) = Returned l1 ->
  fst (predict {| ncols := d; rows := r2 |} w) = Returned l2 ->
  predict {| ncols := d; rows := r1 ++ r2 |} w = (Returned (l1 ++ l2), w).
Proof.
  unfold predict. rewrite !_assign_labels_eq. cbn [fst].
  unfold labels_for, distances_to. cbn [ncols rows].
  destruct (centroids (self w)) as [C|].
  - destruct (np.broadcastable d (ncols C)); [|discriminate].
    unfold np.argmin_axis1. cbn [ncols rows].
    destruct (Nat.eqb (shape0 C) 0); [discriminate|].
    intros H1 H2. injection H1 as <-. injection H2 as <-.
    now rewrite !map_app.
  - destruct r1 as [|x1 r1]; [|discriminate].
    destruct r2 as [|x2 r2]; [|discriminate].
    cbn. intros H1 H2. injection H1 as <-. injection H2 as <-. reflexivity.
Qed.

Lemma predict_concatenation_witness :
  predict {| ncols := 2; rows := [[1; 1]] ++ [[9; 9]; [0; 3]] |} two_blobs_fitted
  = (Returned ([0%nat] ++ [1; 0]%nat), two_blobs_fitted).
Proof.
  apply (predict_concatenation Rotating two_blobs_fitted 2 [[1; 1]] [[9; 9]; [0; 3]]).
  - vm_compute. reflexivity.
  - vm_compute. reflexivity.
Defined.

(** ** What the loop leaves when it ends *)

Section Exit.

Context {RS : RandomState}.

Lemma fit_loop_exit (X : ndarray) (b done : nat) (w w' : world) (info : run_info) :
  fit_loop b X done w = (Returned info, w') ->
  (converged info = true ->
   exists C l,
     centroids (self w') = Some C /\ labels (self w') = Some l /\
     labels_for X (Some C) = Returned l /\
     np.allclose C (means_of X l (n_clusters (self w))) = true) /\
  (converged info = false -> (1 <= b)%nat ->
   exists l,
     labels (self w') = Some l /\
     centroids (self w') = Some (means_of X l (n_clusters (self w)))).
Proof.
  revert done w.
  induction b as [|b IH]; intros done w Hrun.
  - cbn in Hrun. inversion Hrun; subst. cbn. split; [discriminate | lia].
  - destruct (labels_for X (centroids (self w))) as [l|e] eqn:Hl.
    + destruct (centroids (self w)) as [C|] eqn:Hc.
      * rewrite (fit_loop_step b X done w C l Hc Hl) in Hrun. cbn zeta in Hrun.
        destruct (np.allclose C (means_of X l (n_clusters (self w)))) eqn:Hclose.
        -- inversion Hrun; subst. cbn. split; [|discriminate].
           intros _. exists C, l. auto.
        -- destruct b as [|b].
           ++ cbn in Hrun. inversion Hrun; subst. cbn. split; [discriminate|].
              intros _ _. exists l. auto.
           ++ apply IH in Hrun. cbn in Hrun. destruct Hrun as [H1 H2].
              split; [exact H1|]. intros Hconv _. apply H2; [exact Hconv | lia].
      * rewrite (fit_loop_unset_centroids b X done w l Hc Hl) in Hrun. discriminate Hrun.
    + rewrite (fit_loop_raise b X done w e Hl) in Hrun. discriminate Hrun.
Qed.

(** The loop draws nothing from the generator. *)
Lemma fit_loop_generator (X : ndarray) (b done : nat) (w : world) :
  np_random (snd (fit_loop b X done w)) = np_random w.
Proof.
  revert done w.
  induction b as [|b IH]; intros done w.
  - reflexivity.
  - destruct (labels_for X (centroids (self w))) as [l|e] eqn:Hl.
    + destruct (centroids (self w)) as [C|] eqn:Hc.
      * rewrite (fit_loop_step b X done w C l Hc Hl). cbn zeta.
        destruct (np.allclose C (means_of X l (n_clusters (self w)))).
        -- reflexivity.
        -- now rewrite IH.
      * now rewrite (fit_loop_unset_centroids b X done w l Hc Hl).
    + now rewrite (fit_loop_raise b X done w e Hl).
Qed.

(** [fit] up to its loop, whatever the generator promises. *)
Lemma fit_traced_returned (X : ndarray) (w w' : world) (info : run_info) :
  fit_traced X w = (Returned info, w') ->
  exists c,
    fit_loop (Z.to_nat (max_iter (self w))) X 0
      {| self := with_centroids {| ncols := ncols X; rows := c |} (self w);
         np_random := snd (permutation_prefix
                             (generator_before_draw (random_state (self w)) (np_random w))
                             (shape0 X) (Z.to_nat (n_clusters (self w)))) |}
    = (Returned info, w').
Proof.
  intros Hrun. rewrite fit_traced_eq in Hrun.
  assert (Hs : seed_if_configured (random_state (self w)) w
               = (Raised ValueError, w) \/
               seed_if_configured (random_state (self w)) w
               = (Returned tt,
                  {| self := self w;
                     np_random := generator_before_draw (random_state (self w)) (np_random w) |})).
  { unfold seed_if_configured, generator_before_draw, np_random_seed, ret.
    destruct (random_state (self w)) as [s|].
    - destruct (s =? 0)%Z; [right; now destruct w|].
      destruct ((0 <=? s) && (s <? 2 ^ 32))%Z; [now right | now left].
    - right. now destruct w. }
  destruct Hs as [Hs|Hs]; rewrite Hs in Hrun; [discriminate|].
  unfold np_random_choice in Hrun. cbn [self np_random] in Hrun.
  destruct (n_clusters (self w) <? 0)%Z; [discriminate|].
  destruct (Z.of_nat (shape0 X) <? n_clusters (self w))%Z; [discriminate|].
  destruct (permutation_prefix
              (generator_before_draw (random_state (self w)) (np_random w))
              (shape0 X) (Z.to_nat (n_clusters (self w)))) as [idx g].
  destruct (np.take_rows (rows X) idx) as [c|e]; [|discriminate].
  exists c. exact Hrun.
Qed.

End Exit.

(** X7: when [fit] ends on its convergence check, the labels it leaves are
    the assignment against the centroids it leaves, and those centroids are
    within [np.allclose]'s tolerance of the means of the clusters (they are
    the centroids from before the last update, not the means themselves). *)
Theorem fit_converged_state (RS : RandomState)
    (X : ndarray) (w w' : world) (info : run_info) :
  fit_traced X w = (Returned info, w') ->
  converged info = true ->
  exists C l,
    centroids (self w') = Some C /\ labels (self w') = Some l /\
    labels_for X (Some C) = Returned l /\
    np.allclose C (means_of X l (n_clusters (self w))) = true.
Proof.
  intros Hrun Hconv.
  destruct (fit_traced_returned X w w' info Hrun) as (c & Hloop).
  apply fit_loop_exit in Hloop. destruct Hloop as [H _]. exact (H Hconv).
Qed.

Lemma fit_converged_state_witness :
  exists C l,
    centroids (self two_blobs_fitted) = Some C /\ labels (self two_blobs_fitted) = Some l /\
    labels_for two_blobs (Some C) = Returned l /\
    np.allclose C (means_of two_blobs l (n_clusters (self (fresh 2 300 None 0)))) = true.
Proof.
  apply (fit_converged_state Rotating two_blobs (fresh 2 300 None 0) two_blobs_fitted
           {| iterations_run := 3; converged := true |}).
  - vm_compute. reflexivity.
  - reflexivity.
Defined.

(** X8: when [fit] runs out of iterations (at least one) without meeting
    the convergence check, the centroids it leaves are exactly the means of the
    clusters of the labels it leaves. *)
Theorem fit_exhausted_state (RS : RandomState)
    (X : ndarray) (w w' : world) (info : run_info) :
  fit_traced X w = (Returned info, w') ->
  converged info = false ->
  (1 <= max_iter (self w))%Z ->
  exists l,
    labels (self w') = Some l /\
    centroids (self w') = Some (means_of X l (n_clusters (self w))).
Proof.
  intros Hrun Hconv Hm.
  destruct (fit_traced_returned X w w' info Hrun) as (c & Hloop).
  apply fit_loop_exit in Hloop. destruct Hloop as [_ H]. apply H; [exact Hconv | lia].
Qed.

Lemma fit_exhausted_state_witness :
  exists l,
    labels (self (@mk_world Rotating
                    (mk_KMeans 2 1 None (Some (column [0; 5.5])) (Some [0; 1; 1]%nat)) 1%nat))
    = Some l /\
    centroids (self (@mk_world Rotating
                       (mk_KMeans 2 1 None (Some (column [0; 5.5])) (Some [0; 1; 1]%nat)) 1%nat))
    = Some (means_of (column [0; 1; 10]) l (n_clusters (self (fresh 2 1 None 0)))).
Proof.
  apply (fit_exhausted_state Rotating (column [0; 1; 10]) (fresh 2 1 None 0)
           (@mk_world Rotating
              (mk_KMeans 2 1 None (Some (column [0; 5.5])) (Some [0; 1; 1]%nat)) 1%nat)
           {| iterations_run := 1; converged := false |}).
  - vm_compute. reflexivity.
  - reflexivity.
  - cbn. lia.
Defined.

(** X9: a [fit] that returns has drawn from numpy's global generator once,
    and leaves it in the state after that draw: the draw is made from the
    generator as [fit] found it, or, with a seed other than 0, from the
    generator reset to that seed. *)
Theorem fit_draws_once (RS : RandomState) (X : ndarray) (w w' : world) :
  fit X w = (Returned tt, w') ->
  np_random w'
  = snd (permutation_prefix (generator_before_draw (random_state (self w)) (np_random w))
           (shape0 X) (Z.to_nat (n_clusters (self w)))).
Proof.
  intros Hfit. rewrite fit_eq in Hfit.
  destruct (fit_traced X w) as [[info|e] w1] eqn:Hrun; [|discriminate].
  injection Hfit as <-.
  destruct (fit_traced_returned X w w1 info Hrun) as (c & Hloop).
  match type of Hloop with
  | fit_loop ?b X 0 ?W = _ => pose proof (fit_loop_generator X b 0 W) as Hg
  end.
  rewrite Hloop in Hg. exact Hg.
Qed.

Lemma fit_draws_once_witness :
  np_random two_blobs_fitted
  = snd (permutation_prefix
           (generator_before_draw (random_state (self (fresh 2 300 None 0)))
              (np_random (fresh 2 300 None 0)))
           (shape0 two_blobs) (Z.to_nat (n_clusters (self (fresh 2 300 None 0))))).
Proof.
  apply (fit_draws_once Rotating two_blobs (fresh 2 300 None 0) two_blobs_fitted).
  vm_compute. reflexivity.
Defined.

(** ** Fitting an object again *)

Section Refit.

Context {RS : RandomState}.

Lemma with_labels_same (k1 k2 : KMeans) (l : list nat) :
  same_configuration k1 k2 -> centroids k1 = centroids k2 ->
  with_labels l k1 = with_labels l k2.
Proof.
  intros (H1 & H2 & H3) Hc. unfold with_labels. now rewrite H1, H2, H3, Hc.
Qed.

(** Two runs of the loop from states that differ in their labels only. *)
Lemma fit_loop_forgets_labels (X : ndarray) (b done : nat) (w1 w2 : world) :
  same_configuration (self w1) (self w2) ->
  centroids (self w1) = centroids (self w2) ->
  np_random w1 = np_random w2 ->
  fst (fit_loop b X done w1) = fst (fit_loop b X done w2) /\
  centroids (self (snd (fit_loop b X done w1))) = centroids (self (snd (fit_loop b X done w2))) /\
  np_random (snd (fit_loop b X done w1)) = np_random (snd (fit_loop b X done w2)) /\
  ((1 <= b)%nat -> (exists info, fst (fit_loop b X done w1) = Returned info) ->
   snd (fit_loop b X done w1) = snd (fit_loop b X done w2)).
Proof.
  intros Hcfg Hc Hg.
  destruct b as [|b].
  - cbn. repeat split; auto. lia.
  - pose proof Hcfg as (Hn & _ & _).
    assert (Hw : forall l,
              {| self := with_labels l (self w1); np_random := np_random w1 |}
              = {| self := with_labels l (self w2); np_random := np_random w2 |}).
    { intros l. now rewrite (with_labels_same _ _ l Hcfg Hc), Hg. }
    destruct (centroids (self w1)) as [C|] eqn:Hc1; symmetry in Hc;
      destruct (labels_for X (centroids (self w1))) as [l|e] eqn:Hl1;
      pose proof Hl1 as Hl2; rewrite Hc1 in Hl1; rewrite Hc1, <- Hc in Hl2.
    + rewrite (fit_loop_step b X done w1 C l Hc1 Hl1).
      rewrite (fit_loop_step b X done w2 C l Hc Hl1). cbn zeta.
      rewrite <- Hn.
      destruct (np.allclose C (means_of X l (n_clusters (self w1)))).
      * cbn [fst snd]. rewrite Hw. repeat split; auto.
      * assert (Hk : with_labels l (self w1) = with_labels l (self w2)).
        { apply with_labels_same; [exact Hcfg | congruence]. }
        rewrite Hk, Hg. repeat split; auto.
    + rewrite (fit_loop_raise b X done w1 e); [|now rewrite Hc1].
      rewrite (fit_loop_raise b X done w2 e Hl2).
      cbn [fst snd]. rewrite Hc1, Hc. repeat split; auto.
      intros _ (info & Hinfo). discriminate Hinfo.
    + rewrite (fit_loop_unset_centroids b X done w1 l Hc1 Hl1).
      rewrite (fit_loop_unset_centroids b X done w2 l Hc Hl1).
      cbn [fst snd]. rewrite Hw. repeat split; auto.
    + rewrite (fit_loop_raise b X done w1 e); [|now rewrite Hc1].
      rewrite (fit_loop_raise b X done w2 e Hl2).
      cbn [fst snd]. rewrite Hc1, Hc. repeat split; auto.
      intros _ (info & Hinfo). discriminate Hinfo.
Qed.

End Refit.

(** X10: [fit] starts afresh.  Run on two objects configured alike, from
    the same generator state, it ends the same way whatever centroids and
    labels the objects held before; when it returns it leaves the same
    centroids and the same generator state, and, with an iteration budget of
    at least 1, the same labels as well. *)
Theorem fit_forgets_previous_state (RS : RandomState) (X : ndarray) (w1 w2 : world) :
  same_configuration (self w1) (self w2) ->
  np_random w1 = np_random w2 ->
  fst (fit X w1) = fst (fit X w2) /\
  (fst (fit X w1) = Returned tt ->
   centroids (self (snd (fit X w1))) = centroids (self (snd (fit X w2))) /\
   np_random (snd (fit X w1)) = np_random (snd (fit X w2)) /\
   ((1 <= max_iter (self w1))%Z -> snd (fit X w1) = snd (fit X w2))).
Proof.
  intros Hcfg Hg. pose proof Hcfg as (Hn & Hm & Hrs).
  rewrite !fit_eq, !fit_traced_eq. rewrite <- Hn, <- Hm, <- Hrs.
  assert (Hs : (seed_if_configured (random_state (self w1)) w1 = (Raised ValueError, w1) /\
                seed_if_configured (random_state (self w1)) w2 = (Raised ValueError, w2)) \/
               (exists g,
                  seed_if_configured (random_state (self w1)) w1
                  = (Returned tt, {| self := self w1; np_random := g |}) /\
                  seed_if_configured (random_state (self w1)) w2
                  = (Returned tt, {| self := self w2; np_random := g |}))).
  { unfold seed_if_configured, np_random_seed, ret.
    destruct (random_state (self w1)) as [s|].
    - destruct (s =? 0)%Z.
      + right. exists (np_random w1). split; [now destruct w1 | rewrite Hg; now destruct w2].
      + destruct ((0 <=? s) && (s <? 2 ^ 32))%Z; [right; now eexists | now left].
    - right. exists (np_random w1). split; [now destruct w1 | rewrite Hg; now destruct w2]. }
  destruct Hs as [[Hs1 Hs2]|(g & Hs1 & Hs2)]; rewrite Hs1, Hs2.
  { cbn. split; [reflexivity | discriminate]. }
  unfold np_random_choice. cbn [self np_random].
  destruct (n_clusters (self w1) <? 0)%Z.
  { cbn. split; [reflexivity | discriminate]. }
  destruct (Z.of_nat (shape0 X) <? n_clusters (self w1))%Z.
  { cbn. split; [reflexivity | discriminate]. }
  destruct (permutation_prefix g (shape0 X) (Z.to_nat (n_clusters (self w1)))) as [idx g'].
  destruct (np.take_rows (rows X) idx) as [c|e].
  2:{ cbn. split; [reflexivity | discriminate]. }
  cbn [self np_random].
  match goal with
  | |- context [fit_loop ?b X 0 {| self := with_centroids ?C (self w1); np_random := ?G |}] =>
      destruct (fit_loop_forgets_labels X b 0
                  {| self := with_centroids C (self w1); np_random := G |}
                  {| self := with_centroids C (self w2); np_random := G |})
        as (H1 & H2 & H3 & H4);
        [ exact Hcfg | reflexivity | reflexivity | ];
      destruct (fit_loop b X 0 {| self := with_centroids C (self w1); np_random := G |})
        as [[info1|e1] v1];
      destruct (fit_loop b X 0 {| self := with_centroids C (self w2); np_random := G |})
        as [[info2|e2] v2]
  end; cbn [fst snd] in *; try discriminate H1.
  - split; [reflexivity|]. intros _. repeat split; auto.
    intros HM. apply H4; [lia | now exists info1].
  - injection H1 as <-. split; [reflexivity | discriminate].
Qed.

Lemma fit_forgets_previous_state_witness :
  fst (fit (column [0; 1; 10]) (fresh 2 300 None 0))
  = fst (fit (column [0; 1; 10])
           (@mk_world Rotating (self two_blobs_fitted) 0%nat)) /\
  (fst (fit (column [0; 1; 10]) (fresh 2 300 None 0)) = Returned tt ->
   centroids (self (snd (fit (column [0; 1; 10]) (fresh 2 300 None 0))))
   = centroids (self (snd (fit (column [0; 1; 10])
                            (@mk_world Rotating (self two_blobs_fitted) 0%nat)))) /\
   np_random (snd (fit (column [0; 1; 10]) (fresh 2 300 None 0)))
   = np_random (snd (fit (column [0; 1; 10])
                       (@mk_world Rotating (self two_blobs_fitted) 0%nat))) /\
   ((1 <= max_iter (self (fresh 2 300 None 0)))%Z ->
    snd (fit (column [0; 1; 10]) (fresh 2 300 None 0))
    = snd (fit (column [0; 1; 10])
             (@mk_world Rotating (self two_blobs_fitted) 0%nat)))).
Proof.
  apply (fit_forgets_previous_state Rotating (column [0; 1; 10]) (fresh 2 300 None 0)
           (@mk_world Rotating (self two_blobs_fitted) 0%nat)).
  - repeat split.
  - reflexivity.
Defined.

(** ** Clusters that receive no point, in general *)

Module NanFacts.

Import F64 F64Facts.

Lemma is_nan_true (x : float) : is_nan x = true <-> Prim2SF x = S754_nan.
Proof.
  split; intros H.
  - destruct (Prim2SF x) eqn:E; try reflexivity;
      assert (Hn : is_nan x = false) by (apply is_nan_spec; unfold not_nan; congruence);
      congruence.
  - destruct (is_nan x) eqn:E; [reflexivity|].
    apply is_nan_spec in E. now elim E.
Qed.

Lemma eqb_nan_r (x y : float) : is_nan y = true -> (x =? y) = false.
Proof.
  intros H. apply is_nan_true in H. rewrite eqb_spec, H.
  unfold SFeqb, SFcompare. now destruct (Prim2SF x).
Qed.

(** Nothing is close to NaN. *)
Lemma isclose_nan_r (x y : float) : is_nan y = true -> np.isclose x y = false.
Proof.
  intros H. unfold np.isclose, is_finite.
  rewrite H, (eqb_nan_r x y H). cbn. now rewrite andb_false_r.
Qed.

Lemma sub_nan_r (x y : float) : is_nan y = true -> is_nan (x - y) = true.
Proof.
  intros H. apply is_nan_true in H. apply is_nan_true.
  rewrite sub_spec, H. unfold SF64sub, SFsub. now destruct (Prim2SF x).
Qed.

Lemma sub_nan_l (x y : float) : is_nan x = true -> is_nan (x - y) = true.
Proof.
  intros H. apply is_nan_true in H. apply is_nan_true.
  now rewrite sub_spec, H.
Qed.

Lemma square_nan (x : float) : is_nan x = true -> is_nan (np.square x) = true.
Proof.
  intros H. apply is_nan_true in H. apply is_nan_true.
  unfold np.square. now rewrite mul_spec, H.
Qed.

Lemma add_nan_l (x y : float) : is_nan x = true -> is_nan (x + y) = true.
Proof.
  intros H. apply is_nan_true in H. apply is_nan_true.
  now rewrite add_spec, H.
Qed.

Lemma add_nan_r (x y : float) : is_nan y = true -> is_nan (x + y) = true.
Proof.
  intros H. apply is_nan_true in H. apply is_nan_true.
  rewrite add_spec, H. unfold SF64add, SFadd. now destruct (Prim2SF x).
Qed.

Lemma sqrt_nan (x : float) : is_nan x = true -> is_nan (sqrt x) = true.
Proof.
  intros H. apply is_nan_true in H. apply is_nan_true.
  now rewrite sqrt_spec, H.
Qed.

End NanFacts.

Section EmptyCluster.

Context {RS : RandomState}.

(** No row is selected for a label that no point carries. *)
Lemma rows_where_absent (rs : list (list float)) (l : list nat) (i : nat) :
  ~ In i l -> np.rows_where rs l i = [].
Proof.
  unfold np.rows_where. revert l.
  induction rs as [|r rs IH]; intros l Hi; [reflexivity|].
  destruct l as [|j l]; [reflexivity|]. cbn.
  destruct (Nat.eqb j i) eqn:E.
  - apply Nat.eqb_eq in E. subst. elim Hi. now left.
  - apply IH. intros H. apply Hi. now right.
Qed.

(** The mean of no row: 0/0 in every column. *)
Lemma mean_axis0_empty (d : nat) : np.mean_axis0 d [] = repeat nan d.
Proof.
  unfold np.mean_axis0, np.sum_axis0.
  destruct (Nat.eqb d 1) eqn:Hd.
  - apply Nat.eqb_eq in Hd. subst d. reflexivity.
  - cbn [fold_left length]. rewrite map_repeat. f_equal.
Qed.

Lemma means_of_absent (X : ndarray) (l : list nat) (k : Z) (i : nat) :
  (Z.of_nat i < k)%Z -> ~ In i l ->
  nth_error (rows (means_of X l k)) i = Some (repeat nan (ncols X)).
Proof.
  intros Hi Hl. unfold means_of. cbn [rows].
  rewrite nth_error_map, nth_error_seq.
  assert (H : Nat.ltb i (Z.to_nat k) = true) by (apply Nat.ltb_lt; lia).
  rewrite H. cbn. now rewrite (rows_where_absent _ _ _ Hl), mean_axis0_empty.
Qed.

Lemma nth_error_combine_In {A B : Type} (l1 : list A) (l2 : list B) (i : nat) (a : A) (b : B) :
  nth_error l1 i = Some a -> nth_error l2 i = Some b -> In (a, b) (combine l1 l2).
Proof.
  revert l2 i.
  induction l1 as [|x l1 IH]; intros l2 i H1 H2; [now destruct i|].
  destruct l2 as [|y l2]; [now destruct i|].
  destruct i as [|i]; cbn in *.
  - inversion H1; inversion H2; subst. now left.
  - right. eauto.
Qed.

(** An array with a NaN where the other has an entry is not close to it. *)
Lemma allclose_nan (a b : ndarray) (i : nat) (ra rb : list float) (x y : float)
    (ra' rb' : list float) :
  nth_error (rows a) i = Some ra -> nth_error (rows b) i = Some rb ->
  ra = x :: ra' -> rb = y :: rb' -> is_nan y = true ->
  np.allclose a b = false.
Proof.
  intros Ha Hb -> -> Hy. unfold np.allclose.
  destruct (forallb _ (combine (rows a) (rows b))) eqn:E; [|reflexivity].
  rewrite forallb_forall in E.
  specialize (E _ (nth_error_combine_In _ _ _ _ _ Ha Hb)).
  cbn in E. now rewrite (NanFacts.isclose_nan_r x y Hy) in E.
Qed.

End EmptyCluster.

(** X11: let [i] be a cluster index that none of the stored labels carries.
    When there is one label per point, the update step raises nothing and
    gives cluster [i] a centroid that is NaN in every coordinate.  When the
    number of labels differs from the number of points, the update step
    raises [IndexError] (the boolean mask does not fit the array) and leaves
    the object as it was. *)
Theorem update_centroids_absent_label (RS : RandomState)
    (X : ndarray) (w : world) (l : list nat) (i : nat) :
  labels (self w) = Some l ->
  (Z.of_nat i < n_clusters (self w))%Z ->
  ~ In i l ->
  (length l = shape0 X ->
   exists C, _update_centroids X w = (Returned C, w) /\
             nth_error (rows C) i = Some (repeat nan (ncols X))) /\
  (length l <> shape0 X ->
   _update_centroids X w = (Raised IndexError, w)).
Proof.
  intros Hl Hi Hin. split; intros Hlen.
  - rewrite (_update_centroids_eq X w l Hl Hlen).
    eexists. split; [reflexivity|]. now apply means_of_absent.
  - unfold _update_centroids, bind, attr, lift. rewrite Hl.
    destruct (Z.to_nat (n_clusters (self w))) as [|k] eqn:Hk; [lia|].
    cbn [seq]. now rewrite (cluster_means_misfit X l 0 _ Hlen).
Qed.

Lemma update_centroids_absent_label_witness :
  (exists C,
     _update_centroids two_blobs
       (@mk_world Rotating (mk_KMeans 3 300 None None (Some [0; 0; 2; 2]%nat)) 0%nat)
     = (Returned C,
        @mk_world Rotating (mk_KMeans 3 300 None None (Some [0; 0; 2; 2]%nat)) 0%nat) /\
     nth_error (rows C) 1 = Some (repeat nan (ncols two_blobs))) /\
  _update_centroids two_blobs
    (@mk_world Rotating (mk_KMeans 3 300 None None (Some [0]%nat)) 0%nat)
  = (Raised IndexError,
     @mk_world Rotating (mk_KMeans 3 300 None None (Some [0]%nat)) 0%nat).
Proof.
  split.
  - apply (update_centroids_absent_label Rotating two_blobs
             (@mk_world Rotating (mk_KMeans 3 300 None None (Some [0; 0; 2; 2]%nat)) 0%nat)
             [0; 0; 2; 2]%nat 1).
    + reflexivity.
    + cbn. lia.
    + cbn. intros [H|[H|[H|[H|H]]]]; try discriminate H; exact H.
    + reflexivity.
  - apply (update_centroids_absent_label Rotating two_blobs
             (@mk_world Rotating (mk_KMeans 3 300 None None (Some [0]%nat)) 0%nat)
             [0]%nat 1).
    + reflexivity.
    + cbn. lia.
    + cbn. intros [H|H]; [discriminate H | exact H].
    + cbn. discriminate.
Defined.

(** X12: an iteration in which some cluster receives no point never meets
    the convergence check (for points of dimension at least 1, the cluster's
    old centroid holding an entry): the loop stores the NaN centroid and goes
    on with what is left of its budget. *)
Theorem fit_loop_empty_cluster_continues (RS : RandomState)
    (X C : ndarray) (b done : nat) (w : world) (l : list nat) (i : nat) (ci : list float) :
  centroids (self w) = Some C ->
  labels_for X (Some C) = Returned l ->
  (Z.of_nat i < n_clusters (self w))%Z ->
  ~ In i l ->
  nth_error (rows C) i = Some ci ->
  ci <> [] ->
  (1 <= ncols X)%nat ->
  nth_error (rows (means_of X l (n_clusters (self w)))) i = Some (repeat nan (ncols X)) /\
  fit_loop (S b) X done w
  = fit_loop b X (S done)
      {| self := with_centroids (means_of X l (n_clusters (self w))) (with_labels l (self w));
         np_random := np_random w |}.
Proof.
  intros Hc Hl Hi Hin Hci Hne Hd.
  pose proof (means_of_absent X l (n_clusters (self w)) i Hi Hin) as Hnan.
  split; [exact Hnan|].
  rewrite (fit_loop_step b X done w C l Hc Hl). cbn zeta.
  destruct ci as [|x ci']; [congruence|].
  destruct (ncols X) as [|d] eqn:HD; [lia|].
  now rewrite (allclose_nan C _ i _ _ x nan ci' (repeat nan d) Hci Hnan eq_refl eq_refl eq_refl).
Qed.

Lemma fit_loop_empty_cluster_continues_witness :
  nth_error (rows (means_of (column [0; 0]) [0; 0]%nat 2)) 1 = Some (repeat nan 1) /\
  fit_loop 3 (column [0; 0]) 0
    (@mk_world Rotating (mk_KMeans 2 300 None (Some (column [0; 0])) None) 0%nat)
  = fit_loop 2 (column [0; 0]) 1
      (@mk_world Rotating
         (with_centroids (means_of (column [0; 0]) [0; 0]%nat 2)
            (with_labels [0; 0]%nat (mk_KMeans 2 300 None (Some (column [0; 0])) None)))
         0%nat).
Proof.
  apply (fit_loop_empty_cluster_continues Rotating (column [0; 0]) (column [0; 0]) 2 0
           (@mk_world Rotating (mk_KMeans 2 300 None (Some (column [0; 0])) None) 0%nat)
           [0; 0]%nat 1 [0]).
  - reflexivity.
  - vm_compute. reflexivity.
  - cbn. lia.
  - cbn. intros [H|[H|H]]; try discriminate H; exact H.
  - reflexivity.
  - discriminate.
  - cbn. lia.
Defined.

(** ** A centroid that is NaN *)

Section NanCentroid.

Context {RS : RandomState}.

Lemma sum_from_nan (l : list float) (acc : float) :
  is_nan acc = true -> is_nan (fold_left add l acc) = true.
Proof.
  revert acc. induction l as [|v l IH]; intros acc H; cbn; [exact H|].
  apply IH. now apply NanFacts.add_nan_l.
Qed.

Lemma all_nan_firstn (n : nat) (l : list float) : all_nan l -> all_nan (firstn n l).
Proof.
  unfold all_nan. rewrite !Forall_forall. intros H v Hv.
  apply H. rewrite <- (firstn_skipn n l). apply in_or_app. now left.
Qed.

Lemma all_nan_skipn (n : nat) (l : list float) : all_nan l -> all_nan (skipn n l).
Proof.
  unfold all_nan. rewrite !Forall_forall. intros H v Hv.
  apply H. rewrite <- (firstn_skipn n l). apply in_or_app. now right.
Qed.

(** The eight running sums stay eight, and stay NaN. *)
Lemma accumulate8_nan (g : nat) (r l : list float) :
  length r = 8%nat -> all_nan r -> (8 * g <= length l)%nat ->
  length (fst (np.accumulate8 g r l)) = 8%nat /\ all_nan (fst (np.accumulate8 g r l)).
Proof.
  revert r l. induction g as [|g IH]; intros r l Hlen Hnan Hl; [now split|].
  cbn [np.accumulate8]. apply IH.
  - rewrite length_map, length_combine, length_firstn. lia.
  - unfold all_nan in *. rewrite Forall_forall in Hnan |- *.
    intros v Hv. apply in_map_iff in Hv. destruct Hv as ([a b] & <- & Hab).
    apply NanFacts.add_nan_l, Hnan. now apply in_combine_l in Hab.
  - rewrite length_skipn. lia.
Qed.

Lemma sum_unrolled_nan (l : list float) :
  (8 <= length l)%nat -> all_nan l -> is_nan (np.sum_unrolled l) = true.
Proof.
  intros Hlen Hnan. unfold np.sum_unrolled.
  destruct (accumulate8_nan (length l / 8 - 1) (firstn 8 l) (skipn 8 l)) as [H8 Hr].
  - rewrite length_firstn. lia.
  - now apply all_nan_firstn.
  - rewrite length_skipn. pose proof (Nat.Div0.mul_div_le (length l) 8). lia.
  - destruct (np.accumulate8 (length l / 8 - 1) (firstn 8 l) (skipn 8 l)) as [r rest].
    cbn [fst] in H8, Hr.
    destruct r as [|r0 [|r1 [|r2 [|r3 [|r4 [|r5 [|r6 [|r7 [|r8 r]]]]]]]]];
      try discriminate H8.
    apply sum_from_nan. inversion Hr; subst.
    now do 3 apply NanFacts.add_nan_l.
Qed.

Lemma pairwise_sum_nan (depth : nat) (l : list float) :
  l <> [] -> all_nan l -> is_nan (np.pairwise_sum depth l) = true.
Proof.
  revert l. induction depth as [|depth IH]; intros l Hne Hnan.
  - cbn [np.pairwise_sum]. cbv zeta.
    destruct (Nat.ltb_spec (length l) 8) as [H8|H8].
    + destruct l as [|v l]; [congruence|]. inversion Hnan; subst.
      cbn [fold_left]. apply sum_from_nan. now apply NanFacts.add_nan_r.
    + destruct (length l <=? 128)%nat; now apply sum_unrolled_nan.
  - cbn [np.pairwise_sum]. cbv zeta.
    destruct (Nat.ltb_spec (length l) 8) as [H8|H8].
    + destruct l as [|v l]; [congruence|]. inversion Hnan; subst.
      cbn [fold_left]. apply sum_from_nan. now apply NanFacts.add_nan_r.
    + destruct (Nat.leb_spec (length l) 128) as [H128|H128];
        [now apply sum_unrolled_nan|].
      apply NanFacts.add_nan_l, IH; [|now apply all_nan_firstn].
      intros Hnil. apply (f_equal (@length float)) in Hnil.
      rewrite length_firstn in Hnil. cbn [length] in Hnil.
      pose proof (Nat.Div0.mul_div_le (length l) 2).
      pose proof (Nat.mul_succ_div_gt (length l) 2).
      pose proof (Nat.mod_upper_bound (length l / 2) 8).
      lia.
Qed.

Lemma sum_all_nan (l : list float) : l <> [] -> all_nan l -> is_nan (np.sum l) = true.
Proof.
  intros Hne Hnan. unfold np.sum.
  now apply NanFacts.add_nan_r, pairwise_sum_nan.
Qed.

Lemma broadcast2_sub_nan (x c : list float) :
  x <> [] -> c <> [] -> all_nan c ->
  np.broadcast2 sub x c <> [] /\ all_nan (np.broadcast2 sub x c).
Proof.
  intros Hx Hc Hnan. unfold all_nan in *. rewrite Forall_forall in Hnan.
  destruct x as [|a [|a' x']]; [congruence| |].
  - cbn. split; [destruct c; [congruence | discriminate]|].
    apply Forall_forall. intros v Hv. apply in_map_iff in Hv.
    destruct Hv as (y & <- & Hy). apply NanFacts.sub_nan_r. auto.
  - destruct c as [|b [|b' c']]; [congruence| |].
    + cbn [np.broadcast2]. split; [discriminate|].
      apply Forall_forall. intros v Hv. apply in_map_iff in Hv.
      destruct Hv as (y & <- & Hy). apply NanFacts.sub_nan_r. apply Hnan. now left.
    + cbn [np.broadcast2]. split; [discriminate|].
      apply Forall_forall. intros v Hv. apply in_map_iff in Hv.
      destruct Hv as ([y z] & <- & Hy). cbn. apply NanFacts.sub_nan_r.
      apply Hnan. now apply in_combine_r in Hy.
Qed.

(** Every point is at distance NaN from a centroid whose coordinates are all
    NaN. *)
Lemma euclidean_nan (x c : list float) :
  x <> [] -> c <> [] -> all_nan c -> is_nan (euclidean x c) = true.
Proof.
  intros Hx Hc Hnan. unfold euclidean, sq_dist.
  destruct (broadcast2_sub_nan x c Hx Hc Hnan) as [Hne Hall].
  apply NanFacts.sqrt_nan, sum_all_nan.
  - destruct (np.broadcast2 sub x c); [congruence | discriminate].
  - unfold all_nan in *. rewrite Forall_forall in Hall |- *.
    intros v Hv. apply in_map_iff in Hv. destruct Hv as (y & <- & Hy).
    apply NanFacts.square_nan. auto.
Qed.

End NanCentroid.

(** X13: a centroid whose coordinates are all NaN takes the points away
    from the centroids behind it.  In an assignment step against centroids
    of which number [j0] is all NaN, every point (with at least one
    coordinate) gets a label no greater than [j0], and its distance to the
    centroid of its label is NaN. *)
Theorem nan_centroid_attracts (RS : RandomState)
    (X C : ndarray) (w : world) (j0 : nat) (c0 : list float) :
  centroids (self w) = Some C ->
  np.broadcastable (ncols X) (ncols C) = true ->
  nth_error (rows C) j0 = Some c0 ->
  c0 <> [] ->
  all_nan c0 ->
  Forall (fun x => x <> []) (rows X) ->
  exists l,
    _assign_labels X w = (Returned l, w) /\
    forall i x j, nth_error (rows X) i = Some x -> nth_error l i = Some j ->
      (j <= j0)%nat /\
      exists cj, nth_error (rows C) j = Some cj /\ is_nan (euclidean x cj) = true.
Proof.
  intros Hc Hb Hj0 Hne Hnan HX.
  rewrite _assign_labels_eq, Hc. unfold labels_for, distances_to. rewrite Hb.
  unfold np.argmin_axis1. cbn [ncols rows].
  assert (HK : Nat.eqb (shape0 C) 0 = false).
  { unfold shape0. destruct (rows C); [now destruct j0 | reflexivity]. }
  rewrite HK. eexists. split; [reflexivity|].
  intros i x j Hx Hj.
  rewrite map_map, nth_error_map, Hx in Hj. cbn in Hj. injection Hj as Hj.
  assert (Hxne : x <> []).
  { rewrite Forall_forall in HX. apply HX. eapply nth_error_In; eauto. }
  destruct (ArgminFacts.argmin_first_nan (map (euclidean x) (rows C)))
    as (v & Hv & Hvnan & Hbefore).
  { apply Exists_exists. exists (euclidean x c0). split.
    - apply in_map. eapply nth_error_In; eauto.
    - now apply euclidean_nan. }
  rewrite Hj in Hv, Hbefore. rewrite nth_error_map in Hv.
  destruct (nth_error (rows C) j) as [cj|] eqn:Hcj; [|discriminate].
  cbn in Hv. injection Hv as <-. split.
  - destruct (Nat.le_gt_cases j j0) as [Hle|Hgt]; [exact Hle|].
    specialize (Hbefore j0 (euclidean x c0) Hgt).
    rewrite nth_error_map, Hj0 in Hbefore. specialize (Hbefore eq_refl).
    rewrite (euclidean_nan x c0 Hxne Hne Hnan) in Hbefore. discriminate.
  - exists cj. auto.
Qed.

Lemma nan_centroid_attracts_witness :
  exists l,
    _assign_labels (column [0; 0; 10])
      (@mk_world Rotating (mk_KMeans 3 300 None (Some (column [0; nan; 10])) None) 0%nat)
    = (Returned l,
       @mk_world Rotating (mk_KMeans 3 300 None (Some (column [0; nan; 10])) None) 0%nat) /\
    forall i x j, nth_error (rows (column [0; 0; 10])) i = Some x -> nth_error l i = Some j ->
      (j <= 1)%nat /\
      exists cj, nth_error (rows (column [0; nan; 10])) j = Some cj /\
                 is_nan (euclidean x cj) = true.
Proof.
  apply (nan_centroid_attracts Rotating (column [0; 0; 10]) (column [0; nan; 10])
           (@mk_world Rotating (mk_KMeans 3 300 None (Some (column [0; nan; 10])) None) 0%nat)
           1 [nan]).
  - reflexivity.
  - reflexivity.
  - reflexivity.
  - discriminate.
  - repeat constructor.
  - repeat constructor; discriminate.
Defined.

(** ** The exceptions [fit] raises *)

Section Exceptions.

Context {RS : RandomState}.

(** Against centroids of the points' dimension an assignment step raises
    nothing but the [ValueError] of [np.argmin] over no centroid. *)
Lemma labels_for_raises (X C : ndarray) (e : exn) :
  ncols C = ncols X ->
  labels_for X (Some C) = Raised e ->
  e = ValueError /\ rows C = [].
Proof.
  intros Hd Hl. unfold labels_for, distances_to in Hl.
  assert (Hb : np.broadcastable (ncols X) (ncols C) = true).
  { unfold np.broadcastable. rewrite Hd, Nat.eqb_refl. reflexivity. }
  rewrite Hb in Hl. unfold np.argmin_axis1, shape0 in Hl. cbn [ncols rows] in Hl.
  destruct (rows C) as [|c cs]; cbn in Hl.
  - injection Hl as <-. auto.
  - discriminate Hl.
Qed.

Lemma fit_loop_raises (X : ndarray) (b done : nat) (w w' : world) (C : ndarray) (e : exn) :
  centroids (self w) = Some C ->
  ncols C = ncols X ->
  fit_loop b X done w = (Raised e, w') ->
  e = ValueError.
Proof.
  revert done w C.
  induction b as [|b IH]; intros done w C Hc Hd Hrun; [discriminate Hrun|].
  destruct (labels_for X (Some C)) as [l|e0] eqn:Hl.
  - rewrite (fit_loop_step b X done w C l Hc Hl) in Hrun. cbn zeta in Hrun.
    destruct (np.allclose C (means_of X l (n_clusters (self w)))); [discriminate Hrun|].
    eapply IH in Hrun; [exact Hrun | reflexivity | reflexivity].
  - rewrite (fit_loop_raise b X done w e0) in Hrun; [|now rewrite Hc].
    injection Hrun as <- _. now apply (labels_for_raises X C e0 Hd).
Qed.

End Exceptions.

(** X14: [fit] raises nothing but [ValueError] (from the seeding, the draw
    of the sample, or an assignment step against no centroid), given that the
    draw returns indices of points. *)
Theorem fit_raises_only_ValueError (RS : RandomState) (RSS : RandomStateSpec RS)
    (X : ndarray) (w w' : world) (e : exn) :
  fit X w = (Raised e, w') ->
  e = ValueError.
Proof.
  intros Hfit. rewrite fit_eq in Hfit.
  destruct (fit_start RSS X w) as [(w1 & Hr & _)|(c & g & _ & _ & _ & Hr)];
    rewrite Hr in Hfit.
  - now injection Hfit as <- _.
  - match type of Hfit with
    | context [fit_loop ?b X 0 ?W] => destruct (fit_loop b X 0 W) as [[info|e1] w1] eqn:Hrun
    end; [discriminate Hfit|].
    injection Hfit as <- _.
    eapply fit_loop_raises in Hrun; [exact Hrun | reflexivity | reflexivity].
Qed.

(** With no cluster asked for, the first assignment step has no centroid to
    choose from. *)
Lemma fit_without_clusters (RS : RandomState) (RSS : RandomStateSpec RS)
    (X : ndarray) (w : world) :
  n_clusters (self w) = 0%Z ->
  (1 <= max_iter (self w))%Z ->
  seed_ok (random_state (self w)) ->
  exists w',
    fit X w = (Raised ValueError, w') /\
    centroids (self w') = Some {| ncols := ncols X; rows := [] |} /\
    labels (self w') = labels (self w).
Proof.
  intros Hk Hm Hseed. rewrite fit_eq, fit_traced_eq.
  destruct (seed_if_configured_ok (random_state (self w)) w Hseed) as [g Hs]. rewrite Hs.
  destruct (initial_sample RSS X (n_clusters (self w))
              {| self := self w; np_random := g |}) as (idx & g' & c & Hch & Hc & _ & Hlen & _).
  { rewrite Hk. lia. }
  rewrite Hch, Hc. rewrite Hk in Hlen. destruct c as [|r c]; [|discriminate Hlen].
  destruct (Z.to_nat (max_iter (self w))) as [|b] eqn:Hb; [lia|].
  rewrite (fit_loop_raise b X 0 _ ValueError).
  - eexists. split; [reflexivity|]. cbn. auto.
  - cbn. unfold labels_for, distances_to. cbn [ncols rows].
    assert (Hbc : np.broadcastable (ncols X) (ncols X) = true).
    { unfold np.broadcastable. rewrite Nat.eqb_refl. reflexivity. }
    now rewrite Hbc.
Qed.

(** X15: with [n_clusters = 0] and at least one iteration, [fit] fails
    only in its first assignment step, with [ValueError], after it has
    replaced the centroids by an array of no row; the labels stay as they
    were. *)
Theorem fit_zero_clusters (RS : RandomState) (RSS : RandomStateSpec RS)
    (X : ndarray) (w : world) :
  n_clusters (self w) = 0%Z ->
  (1 <= max_iter (self w))%Z ->
  seed_ok (random_state (self w)) ->
  exists w',
    fit X w = (Raised ValueError, w') /\
    centroids (self w') = Some {| ncols := ncols X; rows := [] |} /\
    labels (self w') = labels (self w).
Proof. exact (fit_without_clusters RS RSS X w). Qed.

Lemma fit_zero_clusters_witness :
  exists w',
    fit two_blobs (fresh 0 300 None 0) = (Raised ValueError, w') /\
    centroids (self w') = Some {| ncols := ncols two_blobs; rows := [] |} /\
    labels (self w') = labels (self (fresh 0 300 None 0)).
Proof.
  apply (fit_zero_clusters Rotating Rotating_spec two_blobs (fresh 0 300 None 0)).
  - reflexivity.
  - cbn. lia.
  - exact I.
Defined.

Lemma fit_raises_only_ValueError_witness :
  match fst (fit (column [0]) (fresh 2 300 None 0)) with
  | Raised e => e
  | Returned _ => TypeError
  end = ValueError.
Proof.
  apply (fit_raises_only_ValueError Rotating Rotating_spec (column [0]) (fresh 2 300 None 0)
           (snd (fit (column [0]) (fresh 2 300 None 0)))).
  vm_compute. reflexivity.
Defined.

(** X16: a seed outside [0 .. 2**32 - 1] makes [fit] raise [ValueError]
    at once: neither the object nor the generator is touched. *)
Theorem fit_rejects_seed (RS : RandomState) (X : ndarray) (w : world) (s : Z) :
  random_state (self w) = Some s ->
  (s < 0 \/ 2 ^ 32 <= s)%Z ->
  fit X w = (Raised ValueError, w).
Proof.
  intros Hrs Hs. rewrite fit_eq, fit_traced_eq, Hrs.
  unfold seed_if_configured, np_random_seed.
  assert (H0 : (s =? 0)%Z = false) by (apply Z.eqb_neq; lia).
  assert (Hr : ((0 <=? s) && (s <? 2 ^ 32))%Z = false).
  { apply andb_false_iff. destruct Hs as [Hs|Hs];
      [left; apply Z.leb_gt | right; apply Z.ltb_ge]; lia. }
  now rewrite H0, Hr.
Qed.

Lemma fit_rejects_seed_witness :
  fit two_blobs (fresh 2 300 (Some (-1)%Z) 0) = (Raised ValueError, fresh 2 300 (Some (-1)%Z) 0).
Proof.
  apply (fit_rejects_seed Rotating two_blobs (fresh 2 300 (Some (-1)%Z) 0) (-1)).
  - reflexivity.
  - left. lia.
Defined.

(** ** Dimensions and empty input *)

Section Dimensions.

Context {RS : RandomState}.

(** An assignment step against [K >= 1] centroids whose dimension
    broadcasts against the points'. *)
Lemma labels_for_broadcast (X C : ndarray) :
  np.broadcastable (ncols X) (ncols C) = true ->
  rows C <> [] ->
  exists l, labels_for X (Some C) = Returned l /\ labelling X (Z.of_nat (shape0 C)) l.
Proof.
  intros Hb HC. unfold labels_for, distances_to.
  rewrite Hb. unfold np.argmin_axis1. cbn [ncols rows].
  assert (HK : Nat.eqb (shape0 C) 0 = false).
  { unfold shape0. destruct (rows C); [congruence | reflexivity]. }
  rewrite HK. eexists. split; [reflexivity|]. split.
  - unfold shape0. now rewrite !length_map.
  - rewrite map_map. apply Forall_forall. intros j Hj.
    apply in_map_iff in Hj. destruct Hj as (x & <- & _).
    pose proof (ArgminFacts.argmin_bound (map (euclidean x) (rows C))) as Hlt.
    rewrite length_map in Hlt. unfold shape0.
    assert (H : map (euclidean x) (rows C) <> [])
      by (destruct (rows C); [congruence | discriminate]).
    specialize (Hlt H). lia.
Qed.

End Dimensions.

(** X17: after a [fit] that returned, with at least one cluster, [predict]
    takes the point sets whose dimension is that of the training points or
    broadcasts against it (one of the two is 1), and labels them; for any other
    dimension it raises [ValueError] and changes nothing. *)
Theorem predict_dimensions (RS : RandomState) (RSS : RandomStateSpec RS)
    (X X' : ndarray) (w w' : world) :
  fit X w = (Returned tt, w') ->
  (1 <= n_clusters (self w))%Z ->
  (np.broadcastable (ncols X') (ncols X) = true ->
   exists l, predict X' w' = (Returned l, w') /\ labelling X' (n_clusters (self w)) l) /\
  (np.broadcastable (ncols X') (ncols X) = false ->
   predict X' w' = (Raised ValueError, w')).
Proof.
  intros Hfit Hk.
  destruct (fit_returned_centroids RSS X w w' Hfit) as (C & Hc & HK & HD & _).
  unfold predict. rewrite _assign_labels_eq, Hc. split; intros Hb; rewrite <- HD in Hb.
  - destruct (labels_for_broadcast X' C Hb) as (l & Hl1 & Hl2).
    { unfold shape0 in HK. destruct (rows C); [cbn in HK; lia | discriminate]. }
    exists l. rewrite Hl1. split; [reflexivity|]. now rewrite <- HK.
  - unfold labels_for, distances_to. now rewrite Hb.
Qed.

Lemma predict_dimensions_witness :
  (exists l, predict (column [3]) two_blobs_fitted = (Returned l, two_blobs_fitted) /\
             labelling (column [3]) 2 l) /\
  predict {| ncols := 3; rows := [[1; 2; 3]] |} two_blobs_fitted
  = (Raised ValueError, two_blobs_fitted).
Proof.
  split.
  - apply (predict_dimensions Rotating Rotating_spec two_blobs (column [3])
             (fresh 2 300 None 0) two_blobs_fitted).
    + vm_compute. reflexivity.
    + cbn. lia.
    + reflexivity.
  - apply (predict_dimensions Rotating Rotating_spec two_blobs
             {| ncols := 3; rows := [[1; 2; 3]] |} (fresh 2 300 None 0) two_blobs_fitted).
    + vm_compute. reflexivity.
    + cbn. lia.
    + reflexivity.
Defined.

(** X18: on a point set with no point, a [fit] that is to run at least one
    iteration raises [ValueError], whatever the cluster count (the seed being
    one numpy accepts, or none). *)
Theorem fit_no_points (RS : RandomState) (RSS : RandomStateSpec RS)
    (X : ndarray) (w : world) :
  rows X = [] ->
  (1 <= max_iter (self w))%Z ->
  seed_ok (random_state (self w)) ->
  exists w', fit X w = (Raised ValueError, w').
Proof.
  intros HX Hm Hseed.
  destruct (fit_start RSS X w) as [(w1 & Hr & _)|(c & g & Hk & _ & _ & _)].
  - exists w1. now rewrite fit_eq, Hr.
  - assert (H0 : n_clusters (self w) = 0%Z).
    { unfold shape0 in Hk. rewrite HX in Hk. cbn in Hk. lia. }
    destruct (fit_without_clusters RS RSS X w H0 Hm Hseed) as (w' & Hfit & _).
    now exists w'.
Qed.

Lemma fit_no_points_witness :
  exists w', fit {| ncols := 2; rows := [] |} (fresh 3 300 None 0) = (Raised ValueError, w').
Proof.
  apply (fit_no_points Rotating Rotating_spec {| ncols := 2; rows := [] |} (fresh 3 300 None 0)).
  - reflexivity.
  - cbn. lia.
  - exact I.
Defined.
